(** * fb-adb: the chat engine (chat.c)

    A shallow embedding of [chat.c], the expect-style engine that drives an
    interactive shell through two stdio streams, and the properties of its
    natural-language specification.

    Conventions of the embedding:
    - the inbound stream [cc->from] is the list of bytes the child still has
      to deliver (a pushed-back byte is put in front); [getc] on the empty
      list is end-of-input;
    - the outbound stream [cc->to] records the bytes waiting in the stdio
      buffer and the bytes already handed to the child, and carries an error
      flag: every write operation on a stream in error returns [EOF];
    - [die] never returns: a computation either finishes with a value and a
      new session state, or is [Fatal] with the error category and message;
    - plain [char] is signed on some ABIs (x86, x86-64) and unsigned on
      others (ARM Linux): the embedding takes this as the section variable
      [char_signed]; [unsigned] is 32 bits wide;
    - the C library ([getc], [ungetc], [fputs], [putc], [fflush]) is
      modelled after ISO C; the helpers of util.c ([die], the growable
      string), which are not part of these sources, after the
      specification, [die] formatting its message as [printf] does: the
      message keeps the arguments of the format, a C string under "%s"
      ending at its first NUL and a char under "0x%02x" being the [int] it
      is promoted to. *)

From Stdlib Require Import ZArith List Bool Lia.
From Stdlib Require Import Strings.Byte Strings.String.
Import ListNotations.
Local Open Scope Z_scope.

(** ** Bytes, ints and chars *)

(** The value of an [unsigned char], as [getc] returns it in an [int]. *)
Definition byte_val (b : byte) : Z := Z.of_N (Byte.to_N b).

(** Conversion of an [int] to [unsigned char]: the low eight bits. *)
Definition byte_of_int (i : Z) : byte :=
  match Byte.of_N (Z.to_N (i mod 256)) with
  | Some b => b
  | None => x00
  end.

Definition EOF : Z := -1.

(** Character constants of the source, as the [int]s C makes of them. *)
Definition ch_nul : Z := 0.
Definition ch_lf : Z := 10.       (* '\n' *)
Definition ch_cr : Z := 13.       (* '\r' *)
Definition ch_esc : Z := 27.      (* '\033' *)
Definition ch_space : Z := 32.    (* ' ' *)
Definition ch_hash : Z := 35.     (* '#' *)
Definition ch_dollar : Z := 36.   (* '$' *)
Definition ch_0 : Z := 48.        (* '0' *)
Definition ch_6 : Z := 54.        (* '6' *)
Definition ch_9 : Z := 57.        (* '9' *)
Definition ch_lbracket : Z := 91. (* '[' *)
Definition ch_n : Z := 110.       (* 'n' *)

(** Arithmetic on [unsigned]: results are reduced modulo 2^32. *)
Definition UINT_MODULUS : Z := 2 ^ 32.
Definition to_unsigned (z : Z) : Z := z mod UINT_MODULUS.
Definition umul (a b : Z) : Z := to_unsigned (a * b).
Definition uadd (a b : Z) : Z := to_unsigned (a + b).
Definition usub (a b : Z) : Z := to_unsigned (a - b).

(** The bytes of a string literal. *)
Definition lit (s : string) : list byte := list_byte_of_string s.

(** A [const char*]: the bytes from the pointer on; the string ends at the
    first NUL, or at the end of the list (where the terminator sits). *)
Definition deref (p : list byte) : byte := hd x00 p.

Fixpoint c_string (p : list byte) : list byte :=
  match p with
  | [] => []
  | c :: p' => if Byte.eqb c x00 then [] else c :: c_string p'
  end.

(** ** stdio streams *)

Record ostream : Type := mk_ostream {
  o_error : bool;            (* writes to the descriptor fail *)
  o_buffer : list byte;      (* written, not flushed yet *)
  o_sent : list byte         (* delivered to the child *)
}.

(** [fputs], [putc], [fflush]: [None] is the [EOF] return. With nothing
    in the buffer [fflush] has nothing to write and succeeds, on a stream
    in error too. *)
Definition fputs (s : list byte) (o : ostream) : option ostream :=
  if o_error o then None
  else Some (mk_ostream false (o_buffer o ++ c_string s) (o_sent o)).

Definition putc (c : Z) (o : ostream) : option ostream :=
  if o_error o then None
  else Some (mk_ostream false (o_buffer o ++ [byte_of_int c]) (o_sent o)).

Definition fflush (o : ostream) : option ostream :=
  match o_buffer o with
  | [] => Some o
  | _ :: _ =>
      if o_error o then None
      else Some (mk_ostream false [] (o_sent o ++ o_buffer o))
  end.

(** A stream just opened by [xfdopen], lines 30-31. *)
Definition ostream_open : ostream := mk_ostream false [] [].

(** [getc]: the next byte as an [int], or [EOF]. *)
Definition getc (f : list byte) : Z * list byte :=
  match f with
  | [] => (EOF, [])
  | b :: rest => (byte_val b, rest)
  end.

(** [ungetc]: "if the value of c equals that of the macro EOF, the
    operation fails and the input stream is unchanged" (ISO C, 7.21.7.10);
    any other [int] is converted to [unsigned char] and pushed back. *)
Definition ungetc (c : Z) (f : list byte) : list byte :=
  if c =? EOF then f else byte_of_int c :: f.

(** ** The session and fatal errors *)

Record chat : Type := mk_chat {
  to : ostream;
  from : list byte
}.

Inductive errno : Type := ECOMM.

Inductive message : Type :=
| LostConnection                (* "lost connection to child" *)
| Unexpected (expected found : Z)
    (* "[child] expected 0x%02x %c, found 0x%02x %c", with the two [int]s
       given for "0x%02x" *)
| ChildText (text : list byte). (* "%s", with the text it prints *)

Inductive result (A : Type) : Type :=
| Ok (a : A) (cc : chat)
| Fatal (e : errno) (m : message).
Arguments Ok {A} a cc.
Arguments Fatal {A} e m.

Definition M (A : Type) : Type := chat -> result A.

Definition ret {A} (a : A) : M A := fun cc => Ok a cc.

Definition bind {A B} (m : M A) (k : A -> M B) : M B :=
  fun cc =>
    match m cc with
    | Ok a cc' => k a cc'
    | Fatal e msg => Fatal e msg
    end.

Declare Scope chat_scope.
Delimit Scope chat_scope with chat.
Notation "x <- m ;; k" := (bind m (fun x => k))
  (at level 61, m at next level, right associativity) : chat_scope.
Notation "m ;; k" := (bind m (fun _ => k))
  (at level 61, right associativity) : chat_scope.
Local Open Scope chat_scope.

Definition die {A} (e : errno) (m : message) : M A := fun _ => Fatal e m.

(** [chat_die]: lines 19-23. *)
Definition chat_die {A} : M A := die ECOMM LostConnection.

(** A write on [cc->to] whose [EOF] return is turned into [chat_die]. *)
Definition checked_write (w : ostream -> option ostream) : M unit :=
  fun cc =>
    match w (to cc) with
    | None => chat_die cc
    | Some o => Ok tt (mk_chat o (from cc))
    end.

(** ** The growable string of the scanner *)

Definition growable_string : Type := list byte.

Definition gs_strlen (gs : growable_string) : Z := Z.of_nat (List.length gs).

(** Modelled from the spec: [growable_string_append_c] (util.c is not among
    the sources): append one byte. *)
Definition growable_string_append_c (gs : growable_string) (c : byte)
  : growable_string := gs ++ [c].

(** Modelled from the spec: the whitespace of
    [growable_string_trim_trailing_whitespace], taken as C's [isspace] in
    the C locale: space, and the controls \t \n \v \f \r. *)
Definition isspace (c : byte) : bool :=
  (byte_val c =? 32) || ((9 <=? byte_val c) && (byte_val c <=? 13)).

Fixpoint drop_leading_space (l : list byte) : list byte :=
  match l with
  | [] => []
  | c :: l' => if isspace c then drop_leading_space l' else l
  end.

(** Modelled from the spec: [growable_string_trim_trailing_whitespace]:
    remove the whitespace at the end of the buffer. *)
Definition growable_string_trim_trailing_whitespace (gs : growable_string)
  : growable_string := rev (drop_leading_space (rev gs)).

(** Modelled from the spec: [growable_string_c_str], the stringification of
    the buffer: a [const char*] to its contents, with the terminator
    behind them. *)
Definition growable_string_c_str (gs : growable_string) : list byte := gs.

Section Chat.

(** Whether plain [char] is a signed type on the platform. *)
Variable char_signed : bool.

(** The flag bit [CHAT_SWALLOW_PROMPT] of chat.h. *)
Variable CHAT_SWALLOW_PROMPT : Z.

(** Promotion of a [char] to [int]: where [char] is signed, the bytes from
    0x80 on are the negative values, 0xff being -1; and the conversion of an
    [int] to [char]. A [char] is kept as the byte that represents it. *)
Definition int_of_char (c : byte) : Z :=
  if char_signed && (128 <=? byte_val c) then byte_val c - 256 else byte_val c.

Definition char_of_int (i : Z) : byte := byte_of_int i.

(** ** The read primitives *)

(** [chat_getc], lines 35-43. *)
Definition chat_getc : M byte :=
  fun cc =>
    let '(c, rest) := getc (from cc) in
    if c =? EOF then chat_die cc
    else Ok (char_of_int c) (mk_chat (to cc) rest).

(** [chat_expect], lines 45-57. *)
Definition chat_expect (expected : byte) : M unit :=
  ch <- chat_getc ;;
  let c := int_of_char ch in
  if negb (int_of_char (char_of_int c) =? int_of_char expected)
  then die ECOMM (Unexpected (int_of_char expected)
                    (int_of_char (char_of_int c)))
  else ret tt.

(** [chat_expect_maybe], lines 59-68. *)
Definition chat_expect_maybe (expected : byte) : M bool :=
  c <- chat_getc ;;
  if negb (int_of_char c =? int_of_char expected)
  then fun cc => Ok false (mk_chat (to cc) (ungetc (int_of_char c) (from cc)))
  else ret true.

(** ** The prompt scanner *)

Inductive scan_state : Type := S_NORMAL | S_AFTER_ESC | S_AFTER_CSI.

(** The locals of [chat_swallow_prompt]. *)
Record scanner : Type := mk_scanner {
  csi_arg : Z;
  state : scan_state;
  pre_prompt : growable_string
}.

Definition scanner_init : scanner := mk_scanner 0 S_NORMAL [].

(** The replies to the two status queries. *)
Definition reply_ok : list byte := x1b :: lit "[0n".
Definition reply_cursor : list byte := x1b :: lit "[25;80R".

(** The [switch] on [state], lines 101-140, for the char [c]; [None] is
    [chat_die] after a failed write. *)
Definition scan_switch (sc : scanner) (c : byte) (o : ostream)
  : option (scanner * ostream) :=
  match state sc with
  | S_NORMAL =>
      if int_of_char c =? ch_esc
      then Some (mk_scanner (csi_arg sc) S_AFTER_ESC (pre_prompt sc), o)
      else Some (mk_scanner (csi_arg sc) S_NORMAL
                   (growable_string_append_c (pre_prompt sc) c), o)
  | S_AFTER_ESC =>
      if int_of_char c =? ch_lbracket
      then Some (mk_scanner 0 S_AFTER_CSI (pre_prompt sc), o)
      else Some (mk_scanner (csi_arg sc) S_NORMAL (pre_prompt sc), o)
  | S_AFTER_CSI =>
      if (ch_0 <=? int_of_char c) && (int_of_char c <=? ch_9)
      then Some (mk_scanner
                   (usub (uadd (umul 10 (csi_arg sc))
                            (to_unsigned (int_of_char c)))
                      (to_unsigned ch_0))
                   S_AFTER_CSI (pre_prompt sc), o)
      else if int_of_char c =? ch_n
      then
        match (if csi_arg sc =? 5 then fputs reply_ok o
               else if csi_arg sc =? 6 then fputs reply_cursor o
               else Some o) with
        | None => None
        | Some o1 =>
            match fflush o1 with
            | None => None
            | Some o2 =>
                Some (mk_scanner (csi_arg sc) S_NORMAL (pre_prompt sc), o2)
            end
        end
      else Some (mk_scanner (csi_arg sc) S_NORMAL (pre_prompt sc), o)
  end.

Definition is_prompt_char (c : byte) : bool :=
  (int_of_char c =? ch_hash) || (int_of_char c =? ch_dollar).

(** What one turn of the [for (;;)] loop does with a byte it has read. *)
Inductive turn : Type :=
| Break
| Continue (sc : scanner) (o : ostream)
| Lost.

Definition scan_turn (sc : scanner) (o : ostream) (b : byte) : turn :=
  let c := char_of_int (byte_val b) in
  if is_prompt_char c then Break
  else match scan_switch sc c o with
       | Some (sc', o') => Continue sc' o'
       | None => Lost
       end.

(** The end-of-input exit of the loop, lines 82-87; "%s" prints the C
    string it is given, up to its first NUL. *)
Definition scan_eof {A} (sc : scanner) : M A :=
  let pp := growable_string_trim_trailing_whitespace (pre_prompt sc) in
  if gs_strlen pp =? 0 then chat_die
  else die ECOMM (ChildText (c_string (growable_string_c_str pp))).

(** The loop of lines 80-141, from the locals [sc]; it returns the locals
    it leaves the loop with. *)
Fixpoint scan_loop (sc : scanner) (o : ostream) (f : list byte)
  : result scanner :=
  match f with
  | [] => scan_eof sc (mk_chat o [])
  | b :: rest =>
      match scan_turn sc o b with
      | Break => Ok sc (mk_chat o rest)
      | Continue sc' o' => scan_loop sc' o' rest
      | Lost => chat_die (mk_chat o rest)
      end
  end.

(** The scanner started with the locals [sc]: the loop, then line 143. *)
Definition swallow_prompt_from (sc : scanner) : M unit :=
  (fun cc => scan_loop sc (to cc) (from cc)) ;;
  chat_expect (char_of_int ch_space).

(** [chat_swallow_prompt], lines 70-144. *)
Definition chat_swallow_prompt : M unit := swallow_prompt_from scanner_init.

(** ** talk *)

(** Lines 178-179: [while ( *what) chat_expect(cc, *what++)]. *)
Fixpoint expect_echo (what : list byte) : M unit :=
  match what with
  | [] => ret tt
  | c :: what' =>
      if int_of_char c =? ch_nul then ret tt
      else chat_expect c ;; expect_echo what'
  end.

(** Lines 182-184: the end of the echoed line. *)
Definition expect_line_end : M unit :=
  chat_expect (char_of_int ch_cr) ;;
  chat_expect_maybe (char_of_int ch_cr) ;;
  chat_expect (char_of_int ch_lf).

Definition swallow_requested (flags : Z) : bool :=
  negb (Z.land flags CHAT_SWALLOW_PROMPT =? 0).

(** Lines 165-174: the first echoed byte, or a status query in its place;
    it returns the pointer [what] the echo check goes on from. *)
Definition first_echo (what : list byte) (flags : Z) : M (list byte) :=
  if swallow_requested flags && negb (int_of_char (deref what) =? ch_nul)
  then
    matched <- chat_expect_maybe (deref what) ;;
    if negb matched
    then
      (esc <- chat_expect_maybe (char_of_int ch_esc) ;;
       if esc
       then chat_expect (char_of_int ch_lbracket) ;;
            chat_expect (char_of_int ch_6) ;;
            chat_expect (char_of_int ch_n)
       else ret tt) ;;
      ret what
    else ret (tl what)
  else ret what.

(** [chat_talk_at], lines 146-185. *)
Definition chat_talk_at (what : list byte) (flags : Z) : M unit :=
  (if swallow_requested flags then chat_swallow_prompt else ret tt) ;;
  checked_write (fputs what) ;;
  checked_write (putc ch_lf) ;;
  checked_write fflush ;;
  what' <- first_echo what flags ;;
  expect_echo what' ;;
  expect_line_end.

(** ** Vocabulary of the properties *)

(** The scanner states in which the loop reads the bytes of [f], one entry
    per turn, up to the turn that leaves the loop. *)
Fixpoint scan_reads (sc : scanner) (o : ostream) (f : list byte)
  : list (scan_state * byte) :=
  match f with
  | [] => []
  | b :: rest =>
      (state sc, b) ::
      match scan_turn sc o b with
      | Continue sc' o' => scan_reads sc' o' rest
      | Break | Lost => []
      end
  end.

(** A byte read in state NORMAL that is neither ESC nor a prompt character. *)
Definition plain_read (r : scan_state * byte) : bool :=
  match fst r with
  | S_NORMAL =>
      negb (Byte.eqb (snd r) x1b) &&
      negb (Byte.eqb (snd r) "#"%byte) && negb (Byte.eqb (snd r) "$"%byte)
  | S_AFTER_ESC | S_AFTER_CSI => false
  end.

Definition plain_text (sc : scanner) (o : ostream) (f : list byte)
  : list byte :=
  map snd (filter plain_read (scan_reads sc o f)).

(** The message of the end-of-input exit for the buffer [buf]. *)
Definition eof_message (buf : growable_string) : message :=
  match growable_string_trim_trailing_whitespace buf with
  | [] => LostConnection
  | c :: pp => ChildText (c_string (c :: pp))
  end.

(** The outbound stream after [bytes] were written and the stream flushed. *)
Definition sent_flushed (o : ostream) (bytes : list byte) : ostream :=
  mk_ostream false [] (o_sent o ++ o_buffer o ++ bytes).

(** The reply the scanner gives to the status query of argument [arg]. *)
Definition status_reply (arg : Z) : list byte :=
  if arg =? 5 then [x1b; "["%byte; "0"%byte; "n"%byte]
  else if arg =? 6
  then [x1b; "["%byte; "2"%byte; "5"%byte; ";"%byte; "8"%byte; "0"%byte;
        "R"%byte]
  else [].

(** The digit a digit byte stands for. *)
Definition digit_of (c : byte) : Z := byte_val c - 48.

Definition is_digit (c : byte) : bool :=
  (48 <=? byte_val c) && (byte_val c <=? 57).

(** The number a string of decimal digits denotes, read after [acc]. *)
Definition decimal_from (acc : Z) (digits : list byte) : Z :=
  fold_left (fun a c => 10 * a + digit_of c) digits acc.

Definition decimal_value (digits : list byte) : Z := decimal_from 0 digits.

(** The status query of the decimal argument [digits]. *)
Definition status_query (digits : list byte) : list byte :=
  x1b :: "["%byte :: digits ++ ["n"%byte].

(** The locals and the outbound stream after the loop has taken one turn
    on each byte of [bytes]; [None] if it left the loop on the way. *)
Fixpoint scan_after (sc : scanner) (o : ostream) (bytes : list byte)
  : option (scanner * ostream) :=
  match bytes with
  | [] => Some (sc, o)
  | b :: rest =>
      match scan_turn sc o b with
      | Continue sc' o' => scan_after sc' o' rest
      | Break | Lost => None
      end
  end.

End Chat.

(** ** Vocabulary of the further properties *)

(** A byte that is not a prompt character. *)
Definition not_prompt (b : byte) : Prop := b <> "#"%byte /\ b <> "$"%byte.

(** A byte the scanner takes for plain text when it is in state NORMAL. *)
Definition plain_byte (b : byte) : Prop := b <> x1b /\ not_prompt b.

(** A session whose inbound stream is free of the byte 0xff. *)
Definition ff_free (cc : chat) : Prop := ~ In xff (from cc).

(** A message with the chars it names in place of the [int]s they are
    promoted to, and a result with such a message. *)
Definition message_chars (m : message) : message :=
  match m with
  | Unexpected expected found => Unexpected (expected mod 256) (found mod 256)
  | LostConnection | ChildText _ => m
  end.

Definition result_chars {A} (r : result A) : result A :=
  match r with
  | Ok a cc => Ok a cc
  | Fatal e m => Fatal e (message_chars m)
  end.

(** Two computations that do the same on the sessions free of 0xff, up to
    the promotion of the chars a message names, and keep such a session
    free of 0xff. *)
Definition same_on_ff_free {A} (m1 m2 : M A) : Prop :=
  forall cc : chat,
    ff_free cc ->
    result_chars (m1 cc) = result_chars (m2 cc) /\
    forall (a : A) (cc' : chat), m1 cc = Ok a cc' -> ff_free cc'.

(** A computation that leaves the outbound stream as it finds it. *)
Definition keeps_outbound {A} (m : M A) : Prop :=
  forall (cc cc' : chat) (a : A), m cc = Ok a cc' -> to cc' = to cc.

(** * Properties *)

(** ** Bytes and chars *)

Lemma byte_val_range (b : byte) : 0 <= byte_val b <= 255.
Proof.
  unfold byte_val. pose proof (Byte.to_N_bounded b). lia.
Qed.

Lemma byte_of_int_val (b : byte) : byte_of_int (byte_val b) = b.
Proof.
  unfold byte_of_int. pose proof (byte_val_range b) as Hb.
  rewrite Z.mod_small by lia. unfold byte_val.
  now rewrite N2Z.id, Byte.of_to_N.
Qed.

Lemma byte_of_int_shift (z : Z) : byte_of_int (z - 256) = byte_of_int z.
Proof.
  unfold byte_of_int. replace (z - 256) with (z + (-1) * 256) by lia.
  now rewrite Z.mod_add by lia.
Qed.

Lemma byte_eqb_refl (b : byte) : Byte.eqb b b = true.
Proof. now apply Byte.byte_dec_lb. Qed.

Lemma byte_eqb_neq (a b : byte) : a <> b -> Byte.eqb a b = false.
Proof.
  intros Hab. destruct (Byte.eqb a b) eqn:E; [|reflexivity].
  now apply Byte.byte_dec_bl in E.
Qed.

Lemma byte_val_inj (a b : byte) : byte_val a = byte_val b -> a = b.
Proof.
  intros H. rewrite <- (byte_of_int_val a), <- (byte_of_int_val b).
  now rewrite H.
Qed.

Section CharFacts.

Variable signed : bool.

Lemma char_of_int_of_char (c : byte) : char_of_int (int_of_char signed c) = c.
Proof.
  unfold char_of_int, int_of_char.
  destruct (signed && (128 <=? byte_val c)).
  - now rewrite byte_of_int_shift, byte_of_int_val.
  - apply byte_of_int_val.
Qed.

Lemma int_of_char_eqb (a b : byte) :
  (int_of_char signed a =? int_of_char signed b) = Byte.eqb a b.
Proof.
  destruct (Z.eqb_spec (int_of_char signed a) (int_of_char signed b)) as [E|E].
  - rewrite <- (char_of_int_of_char a), <- (char_of_int_of_char b), E.
    symmetry. apply byte_eqb_refl.
  - symmetry. apply byte_eqb_neq. intros ->. now apply E.
Qed.

(** A comparison of a char with one of the source's character constants
    is a comparison of bytes. *)
Lemma int_of_char_const (c : byte) (k : Z) :
  0 <= k < 128 -> (int_of_char signed c =? k) = Byte.eqb c (byte_of_int k).
Proof.
  intros Hk. pose proof (byte_val_range c) as Hc.
  destruct (Byte.eqb c (byte_of_int k)) eqn:E.
  - apply Byte.byte_dec_bl in E. subst c. apply Z.eqb_eq.
    unfold int_of_char.
    assert (Hv : byte_val (byte_of_int k) = k).
    { unfold byte_of_int. rewrite Z.mod_small by lia.
      destruct (Byte.of_N (Z.to_N k)) as [b|] eqn:Eb.
      - apply Byte.to_of_N in Eb. unfold byte_val. rewrite Eb. lia.
      - apply Byte.of_N_None_iff in Eb. lia. }
    rewrite Hv. replace (128 <=? k) with false by (symmetry; apply Z.leb_gt; lia).
    now rewrite andb_false_r.
  - apply Z.eqb_neq. intros H. apply Byte.eqb_false in E. apply E.
    rewrite <- (char_of_int_of_char c), H. reflexivity.
Qed.

(** What [ungetc] does with a [char]: on a platform with signed chars the
    byte 0xff is the [int] -1, that is [EOF], and is not pushed back. *)
Lemma ungetc_char (c : byte) (f : list byte) :
  ungetc (int_of_char signed c) f =
  if signed && Byte.eqb c xff then f else c :: f.
Proof.
  unfold ungetc. pose proof (byte_val_range c) as Hc.
  destruct (Z.eqb_spec (int_of_char signed c) EOF) as [E|E].
  - unfold int_of_char, EOF in E.
    destruct signed; cbn [andb] in E; [|lia].
    destruct (128 <=? byte_val c); [|lia].
    assert (c = xff) as ->.
    { apply byte_val_inj. change (byte_val xff) with 255. lia. }
    reflexivity.
  - fold (char_of_int (int_of_char signed c)). rewrite char_of_int_of_char.
    destruct signed; [|reflexivity]. simpl.
    destruct (Byte.eqb c xff) eqn:Ec; [|reflexivity].
    apply Byte.byte_dec_bl in Ec. subst c. now elim E.
Qed.

End CharFacts.

(** ** The read primitives *)

Lemma chat_getc_eof (o : ostream) :
  chat_getc (mk_chat o []) = Fatal ECOMM LostConnection.
Proof. reflexivity. Qed.

Lemma chat_getc_cons (o : ostream) (b : byte) (rest : list byte) :
  chat_getc (mk_chat o (b :: rest)) = Ok b (mk_chat o rest).
Proof.
  unfold chat_getc. cbn [from getc to]. pose proof (byte_val_range b) as Hb.
  replace (byte_val b =? EOF) with false
    by (symmetry; apply Z.eqb_neq; unfold EOF; lia).
  unfold char_of_int. now rewrite byte_of_int_val.
Qed.

Section Primitives.

Variable signed : bool.

Lemma chat_expect_eof (expected : byte) (o : ostream) :
  chat_expect signed expected (mk_chat o []) = Fatal ECOMM LostConnection.
Proof. reflexivity. Qed.

Lemma chat_expect_cons (expected : byte) (o : ostream) (b : byte)
    (rest : list byte) :
  chat_expect signed expected (mk_chat o (b :: rest)) =
  if Byte.eqb b expected then Ok tt (mk_chat o rest)
  else Fatal ECOMM (Unexpected (int_of_char signed expected)
                      (int_of_char signed b)).
Proof.
  unfold chat_expect, bind. rewrite chat_getc_cons.
  rewrite char_of_int_of_char, int_of_char_eqb.
  now destruct (Byte.eqb b expected).
Qed.

Lemma chat_expect_maybe_cons (expected : byte) (o : ostream) (b : byte)
    (rest : list byte) :
  chat_expect_maybe signed expected (mk_chat o (b :: rest)) =
  if Byte.eqb b expected then Ok true (mk_chat o rest)
  else Ok false (mk_chat o (if signed && Byte.eqb b xff then rest
                            else b :: rest)).
Proof.
  unfold chat_expect_maybe, bind. rewrite chat_getc_cons, int_of_char_eqb.
  destruct (Byte.eqb b expected); [reflexivity|].
  cbn [negb to from]. now rewrite ungetc_char.
Qed.

(** On a mismatch the byte is put back whenever it is not the byte 0xff
    read as a signed char. *)
Lemma chat_expect_maybe_unread (expected : byte) (o : ostream) (b : byte)
    (rest : list byte) :
  b <> expected ->
  signed = false \/ b <> xff ->
  chat_expect_maybe signed expected (mk_chat o (b :: rest)) =
  Ok false (mk_chat o (b :: rest)).
Proof.
  intros Hne Hff. rewrite chat_expect_maybe_cons, (byte_eqb_neq _ _ Hne).
  destruct Hff as [-> | Hff]; [reflexivity|].
  now rewrite (byte_eqb_neq _ _ Hff), andb_false_r.
Qed.

(** C9: at end-of-input [chat_expect_maybe] does not return false: it is
    fatal, with the communication error "lost connection to child". *)
Theorem chat_expect_maybe_eof_fatal (expected : byte) (o : ostream) :
  chat_expect_maybe signed expected (mk_chat o []) =
  Fatal ECOMM LostConnection.
Proof. reflexivity. Qed.

End Primitives.

(** ** The prompt scanner *)

Lemma gs_strlen_zero (gs : growable_string) :
  (gs_strlen gs =? 0) = match gs with [] => true | _ :: _ => false end.
Proof.
  unfold gs_strlen. destruct gs as [|c gs]; [reflexivity|].
  apply Z.eqb_neq. cbn [List.length]. lia.
Qed.

Lemma drop_leading_space_split (l : list byte) :
  exists ws, l = ws ++ drop_leading_space l /\
             Forall (fun c => isspace c = true) ws /\
             (forall c, hd_error (drop_leading_space l) = Some c ->
                        isspace c = false).
Proof.
  induction l as [|c l IH].
  - exists []. repeat split; [constructor | discriminate].
  - cbn [drop_leading_space]. destruct (isspace c) eqn:Ec.
    + destruct IH as (ws & Hl & Hws & Hhd). exists (c :: ws).
      repeat split; [cbn; congruence | now constructor | exact Hhd].
    + exists []. repeat split; [constructor|].
      intros c' [= <-]. exact Ec.
Qed.

(** The model of the trimming does what its name says: it cuts a suffix of
    whitespace off, and what is left does not end in whitespace. *)
Lemma trim_trailing_whitespace_split (gs : growable_string) :
  exists ws, gs = growable_string_trim_trailing_whitespace gs ++ ws /\
             Forall (fun c => isspace c = true) ws /\
             (forall c pp, growable_string_trim_trailing_whitespace gs
                           = pp ++ [c] -> isspace c = false).
Proof.
  unfold growable_string_trim_trailing_whitespace.
  destruct (drop_leading_space_split (rev gs)) as (ws & Hl & Hws & Hhd).
  exists (rev ws). repeat split.
  - rewrite <- rev_app_distr, <- Hl. symmetry. apply rev_involutive.
  - apply Forall_rev. exact Hws.
  - intros c pp Hpp. apply Hhd.
    rewrite <- (rev_involutive (drop_leading_space (rev gs))), Hpp.
    now rewrite rev_app_distr.
Qed.

(** A list without NUL is a C string as it stands. *)
Lemma c_string_no_nul (what : list byte) :
  Forall (fun c => c <> x00) what -> c_string what = what.
Proof.
  induction 1 as [|c what Hc _ IH]; [reflexivity|].
  cbn [c_string]. now rewrite (byte_eqb_neq _ _ Hc), IH.
Qed.

(** On a stream that takes the writes [fflush] hands the buffer over. *)
Lemma fflush_working (o : ostream) :
  o_error o = false ->
  fflush o = Some (mk_ostream false [] (o_sent o ++ o_buffer o)).
Proof.
  destruct o as [err pending sent]. cbn [o_error o_buffer o_sent].
  intros ->. unfold fflush. cbn [o_error o_buffer o_sent].
  destruct pending; [now rewrite app_nil_r | reflexivity].
Qed.

(** Reducing the accumulator on the way does not change the residue. *)
Lemma decimal_from_mod (digits : list byte) :
  forall (acc : Z) (c : byte),
    decimal_from ((10 * acc + digit_of c) mod UINT_MODULUS) digits
      mod UINT_MODULUS =
    decimal_from acc (c :: digits) mod UINT_MODULUS.
Proof.
  assert (HM : UINT_MODULUS <> 0) by discriminate.
  unfold decimal_from. cbn [fold_left].
  induction digits as [|c' digits IH]; intros acc c.
  - cbn. now apply Z.mod_mod.
  - cbn [fold_left].
    rewrite <- (IH (10 * acc + digit_of c) c').
    rewrite <- (IH ((10 * acc + digit_of c) mod UINT_MODULUS) c').
    do 2 f_equal.
    rewrite Zplus_mod, Zmult_mod, Z.mod_mod by exact HM.
    now rewrite <- Zmult_mod, <- Zplus_mod.
Qed.

Section Scanner.

Variable signed : bool.

Lemma is_prompt_char_bytes (c : byte) :
  is_prompt_char signed c = Byte.eqb c "#"%byte || Byte.eqb c "$"%byte.
Proof.
  unfold is_prompt_char.
  now rewrite !int_of_char_const by (unfold ch_hash, ch_dollar; lia).
Qed.

Lemma scan_turn_eq (sc : scanner) (o : ostream) (b : byte) :
  scan_turn signed sc o b =
  if is_prompt_char signed b then Break
  else match scan_switch signed sc b o with
       | Some (sc', o') => Continue sc' o'
       | None => Lost
       end.
Proof.
  unfold scan_turn, char_of_int. now rewrite byte_of_int_val.
Qed.

Lemma scan_eof_message {A} (sc : scanner) (cc : chat) :
  @scan_eof A sc cc = Fatal ECOMM (eof_message (pre_prompt sc)).
Proof.
  unfold scan_eof, eof_message, growable_string_c_str.
  rewrite gs_strlen_zero.
  now destruct (growable_string_trim_trailing_whitespace (pre_prompt sc)).
Qed.

(** The switch never touches the buffer outside state NORMAL, and in state
    NORMAL it appends exactly the bytes that are not ESC. *)
Lemma scan_switch_pre_prompt (sc sc' : scanner) (o o' : ostream) (c : byte) :
  scan_switch signed sc c o = Some (sc', o') ->
  pre_prompt sc' =
  match state sc with
  | S_NORMAL => if Byte.eqb c x1b then pre_prompt sc else pre_prompt sc ++ [c]
  | S_AFTER_ESC | S_AFTER_CSI => pre_prompt sc
  end.
Proof.
  unfold scan_switch. destruct (state sc).
  - rewrite int_of_char_const by (unfold ch_esc; lia).
    change (byte_of_int ch_esc) with x1b.
    destruct (Byte.eqb c x1b); intros [= <- <-]; reflexivity.
  - destruct (int_of_char signed c =? ch_lbracket); intros [= <- <-];
      reflexivity.
  - destruct ((ch_0 <=? int_of_char signed c) && (int_of_char signed c <=? ch_9)).
    + intros [= <- <-]; reflexivity.
    + destruct (int_of_char signed c =? ch_n); [|intros [= <- <-]; reflexivity].
      destruct (if csi_arg sc =? 5 then fputs reply_ok o
                else if csi_arg sc =? 6 then fputs reply_cursor o
                else Some o) as [o1|]; [|discriminate].
      destruct (fflush o1); [|discriminate].
      intros [= <- <-]; reflexivity.
Qed.

Lemma scan_switch_error (sc : scanner) (o : ostream) (c : byte) :
  o_error o = false ->
  exists sc' o', scan_switch signed sc c o = Some (sc', o') /\
                 o_error o' = false.
Proof.
  intros Ho. unfold scan_switch.
  destruct (state sc).
  - destruct (int_of_char signed c =? ch_esc); eauto.
  - destruct (int_of_char signed c =? ch_lbracket); eauto.
  - destruct ((ch_0 <=? int_of_char signed c) && (int_of_char signed c <=? ch_9));
      [eauto|].
    destruct (int_of_char signed c =? ch_n); [|eauto].
    unfold fputs. rewrite Ho.
    destruct (csi_arg sc =? 5); [|destruct (csi_arg sc =? 6)];
      rewrite fflush_working by (try exact Ho; reflexivity); eauto.
Qed.

Lemma scan_turn_pre_prompt (sc sc' : scanner) (o o' : ostream) (b : byte) :
  scan_turn signed sc o b = Continue sc' o' ->
  pre_prompt sc' =
  pre_prompt sc ++ (if plain_read (state sc, b) then [b] else []).
Proof.
  rewrite scan_turn_eq, is_prompt_char_bytes. unfold plain_read.
  cbn [fst snd].
  destruct (Byte.eqb b "#"%byte); [discriminate|].
  destruct (Byte.eqb b "$"%byte); [discriminate|]. cbn [orb negb andb].
  destruct (scan_switch signed sc b o) as [[sc1 o1]|] eqn:Esw; [|discriminate].
  intros [= <- <-]. apply scan_switch_pre_prompt in Esw. rewrite Esw.
  destruct (state sc); [|now rewrite app_nil_r..].
  destruct (Byte.eqb b x1b); [now rewrite app_nil_r | reflexivity].
Qed.

Lemma scan_after_pre_prompt (bytes : list byte) :
  forall (sc sc' : scanner) (o o' : ostream),
    scan_after signed sc o bytes = Some (sc', o') ->
    pre_prompt sc' = pre_prompt sc ++ plain_text signed sc o bytes.
Proof.
  unfold plain_text.
  induction bytes as [|b bytes IH]; intros sc sc' o o' Hrun.
  - injection Hrun as <- <-. cbn. now rewrite app_nil_r.
  - cbn [scan_after scan_reads] in *.
    destruct (scan_turn signed sc o b) as [|sc1 o1|] eqn:Eturn;
      try discriminate.
    apply scan_turn_pre_prompt in Eturn. apply IH in Hrun.
    rewrite Hrun, Eturn. cbn [filter].
    destruct (plain_read (state sc, b)); cbn [map snd];
      now rewrite <- app_assoc.
Qed.

(** The loop goes on from the locals it has reached. *)
Lemma scan_loop_after (bytes rest : list byte) :
  forall (sc sc' : scanner) (o o' : ostream),
    scan_after signed sc o bytes = Some (sc', o') ->
    scan_loop signed sc o (bytes ++ rest) = scan_loop signed sc' o' rest.
Proof.
  induction bytes as [|b bytes IH]; intros sc sc' o o' Hrun.
  - now injection Hrun as <- <-.
  - cbn [scan_after app scan_loop] in *.
    destruct (scan_turn signed sc o b); try discriminate. now apply IH.
Qed.

(** Without a prompt byte and without a write error the loop takes a turn
    on every byte. *)
Lemma scan_after_total (bytes : list byte) :
  forall (sc : scanner) (o : ostream),
    Forall (fun b => is_prompt_char signed b = false) bytes ->
    o_error o = false ->
    exists sc' o', scan_after signed sc o bytes = Some (sc', o') /\
                   o_error o' = false.
Proof.
  induction bytes as [|b bytes IH]; intros sc o Hnp Ho.
  - exists sc, o. now split.
  - inversion Hnp as [|? ? Hb Hbytes]; subst.
    cbn [scan_after]. rewrite scan_turn_eq, Hb.
    destruct (scan_switch_error sc o b Ho) as (sc1 & o1 & -> & Ho1).
    now apply IH.
Qed.

(** End-of-input before any prompt byte: the scanner dies with the plain
    text it has read. *)
Lemma scan_loop_no_prompt (bytes : list byte) (sc : scanner) (o : ostream) :
  Forall (fun b => is_prompt_char signed b = false) bytes ->
  o_error o = false ->
  scan_loop signed sc o bytes =
  Fatal ECOMM (eof_message (pre_prompt sc ++ plain_text signed sc o bytes)).
Proof.
  intros Hnp Ho.
  destruct (scan_after_total bytes sc o Hnp Ho) as (sc' & o' & Hrun & _).
  rewrite <- (app_nil_r bytes) at 1.
  rewrite (scan_loop_after _ _ _ _ _ _ Hrun). cbn [scan_loop].
  rewrite scan_eof_message.
  now rewrite (scan_after_pre_prompt _ _ _ _ _ Hrun).
Qed.

(** *** Status queries *)

Lemma digit_char (c : byte) :
  is_digit c = true ->
  int_of_char signed c = byte_val c /\ 48 <= byte_val c <= 57.
Proof.
  unfold is_digit, int_of_char. intros H.
  apply andb_true_iff in H as [H1 H2].
  apply Z.leb_le in H1. apply Z.leb_le in H2.
  replace (128 <=? byte_val c) with false by (symmetry; apply Z.leb_gt; lia).
  rewrite andb_false_r. lia.
Qed.

Lemma digit_not_prompt (c : byte) :
  is_digit c = true -> is_prompt_char signed c = false.
Proof.
  intros H. destruct (digit_char c H) as [Hc Hr].
  unfold is_prompt_char, ch_hash, ch_dollar. rewrite Hc.
  apply orb_false_iff. split; apply Z.eqb_neq; lia.
Qed.

Lemma scan_switch_digit (arg : Z) (buf : growable_string) (o : ostream)
    (c : byte) :
  is_digit c = true ->
  scan_switch signed (mk_scanner arg S_AFTER_CSI buf) c o =
  Some (mk_scanner ((10 * arg + digit_of c) mod UINT_MODULUS) S_AFTER_CSI buf,
        o).
Proof.
  intros H. destruct (digit_char c H) as [Hc Hr].
  unfold scan_switch. cbn [state csi_arg pre_prompt]. rewrite Hc.
  unfold ch_0, ch_9.
  replace ((48 <=? byte_val c) && (byte_val c <=? 57)) with true
    by (symmetry; apply andb_true_iff; split; apply Z.leb_le; lia).
  unfold usub, uadd, umul, to_unsigned, digit_of.
  rewrite <- Zplus_mod, <- Zminus_mod.
  now replace (10 * arg + byte_val c - 48) with (10 * arg + (byte_val c - 48))
    by lia.
Qed.

Lemma scan_after_digits (digits : list byte) :
  forall (arg : Z) (buf : growable_string) (o : ostream),
    Forall (fun c => is_digit c = true) digits ->
    0 <= arg < UINT_MODULUS ->
    exists arg',
      scan_after signed (mk_scanner arg S_AFTER_CSI buf) o digits =
      Some (mk_scanner arg' S_AFTER_CSI buf, o) /\
      arg' = decimal_from arg digits mod UINT_MODULUS /\
      0 <= arg' < UINT_MODULUS.
Proof.
  assert (HM : 0 < UINT_MODULUS) by reflexivity.
  induction digits as [|c digits IH]; intros arg buf o Hd Harg.
  - exists arg. cbn [scan_after decimal_from fold_left].
    rewrite Z.mod_small by lia. auto.
  - inversion Hd as [|? ? Hc Hds]; subst.
    cbn [scan_after]. rewrite scan_turn_eq, (digit_not_prompt c Hc).
    rewrite (scan_switch_digit _ _ _ _ Hc).
    destruct (IH ((10 * arg + digit_of c) mod UINT_MODULUS) buf o Hds)
      as (arg' & Hrun & Harg' & Hrange).
    { apply Z.mod_pos_bound. exact HM. }
    exists arg'. split; [exact Hrun|]. split; [|exact Hrange].
    rewrite Harg'. apply decimal_from_mod.
Qed.

Lemma scan_after_app (bytes rest : list byte) :
  forall (sc : scanner) (o : ostream),
    scan_after signed sc o (bytes ++ rest) =
    match scan_after signed sc o bytes with
    | Some (sc', o') => scan_after signed sc' o' rest
    | None => None
    end.
Proof.
  induction bytes as [|b bytes IH]; intros sc o; [reflexivity|].
  cbn [app scan_after]. now destruct (scan_turn signed sc o b).
Qed.

Lemma scan_turn_esc (arg : Z) (buf : growable_string) (o : ostream) :
  scan_turn signed (mk_scanner arg S_NORMAL buf) o x1b =
  Continue (mk_scanner arg S_AFTER_ESC buf) o.
Proof. now destruct signed. Qed.

Lemma scan_turn_csi (arg : Z) (buf : growable_string) (o : ostream) :
  scan_turn signed (mk_scanner arg S_AFTER_ESC buf) o "["%byte =
  Continue (mk_scanner 0 S_AFTER_CSI buf) o.
Proof. now destruct signed. Qed.

(** The turn on the byte 'n' that ends a CSI sequence. *)
Lemma scan_turn_query_end (arg : Z) (buf : growable_string) (o : ostream) :
  scan_turn signed (mk_scanner arg S_AFTER_CSI buf) o "n"%byte =
  if o_error o
  then if (arg =? 5) || (arg =? 6) then Lost
       else match o_buffer o with
            | [] => Continue (mk_scanner arg S_NORMAL buf) o
            | _ :: _ => Lost
            end
  else Continue (mk_scanner arg S_NORMAL buf)
         (sent_flushed o (status_reply arg)).
Proof.
  assert (Hn : int_of_char signed "n"%byte = 110) by now destruct signed.
  rewrite scan_turn_eq. unfold is_prompt_char, scan_switch. rewrite Hn.
  cbn [state csi_arg pre_prompt].
  change ((110 =? ch_hash) || (110 =? ch_dollar)) with false.
  change ((ch_0 <=? 110) && (110 <=? ch_9)) with false.
  change (110 =? ch_n) with true. cbv iota.
  destruct o as [err pending sent]. unfold fputs, sent_flushed, status_reply.
  cbn [o_error o_buffer o_sent].
  destruct err.
  - destruct (arg =? 5); [reflexivity|].
    destruct (arg =? 6); [reflexivity|]. cbn [orb].
    unfold fflush. cbn [o_error o_buffer].
    now destruct pending.
  - destruct (arg =? 5); [now rewrite fflush_working by reflexivity|].
    destruct (arg =? 6); [now rewrite fflush_working by reflexivity|].
    rewrite fflush_working by reflexivity.
    cbn [o_error o_buffer o_sent]. now rewrite app_nil_r.
Qed.

(** A whole status query read in state NORMAL: the argument is the decimal
    number of the query reduced modulo 2^32. *)
Lemma scan_after_status_query (digits : list byte) (sc : scanner)
    (o : ostream) :
  Forall (fun c => is_digit c = true) digits ->
  state sc = S_NORMAL ->
  o_error o = false ->
  scan_after signed sc o (status_query digits) =
  Some (mk_scanner (decimal_value digits mod UINT_MODULUS) S_NORMAL
          (pre_prompt sc),
        sent_flushed o (status_reply (decimal_value digits mod UINT_MODULUS))).
Proof.
  intros Hd Hst Ho. destruct sc as [arg st buf]. cbn in Hst. subst st.
  unfold status_query. cbn [scan_after pre_prompt].
  rewrite scan_turn_esc, scan_turn_csi, scan_after_app.
  destruct (scan_after_digits digits 0 buf o Hd) as (arg' & -> & Harg & _);
    [now split|].
  cbn [scan_after]. rewrite scan_turn_query_end, Ho.
  unfold decimal_value, sent_flushed, status_reply. now rewrite Harg.
Qed.

(** C3: when the scanner reads the byte 'n' that ends a CSI sequence, it
    writes ESC [ 0 n if the accumulated argument is 5, ESC [ 2 5 ; 8 0 R if
    it is 6, and nothing for any other argument; in all three cases it
    flushes the outbound stream and goes back to state NORMAL. On a stream
    in error the write of a reply, or the flush of what is in the buffer,
    fails, which is the fatal lost-connection exit; with no reply to write
    and nothing in the buffer the flush has nothing to do and the scanner
    goes on. *)
Theorem status_query_answered (arg : Z) (buf : growable_string)
    (o : ostream) :
  scan_turn signed (mk_scanner arg S_AFTER_CSI buf) o "n"%byte =
  if o_error o
  then if (arg =? 5) || (arg =? 6) then Lost
       else match o_buffer o with
            | [] => Continue (mk_scanner arg S_NORMAL buf) o
            | _ :: _ => Lost
            end
  else Continue (mk_scanner arg S_NORMAL buf)
         (mk_ostream false []
            (o_sent o ++ o_buffer o ++
             (if arg =? 5 then [x1b; "["; "0"; "n"]%byte
              else if arg =? 6
              then [x1b; "["; "2"; "5"; ";"; "8"; "0"; "R"]%byte
              else []))).
Proof. apply scan_turn_query_end. Qed.

(** C4: in whatever state the scanner is, a '#' or '$' byte makes it leave
    the loop at once, nothing written and no local changed; the next
    inbound byte must then be a space: any other byte, or end-of-input,
    is fatal. This holds wherever in the inbound stream the byte comes. *)
Theorem prompt_char_ends_scan (sc : scanner) (o : ostream) (b : byte)
    (rest : list byte) :
  b = "#"%byte \/ b = "$"%byte ->
  scan_loop signed sc o (b :: rest) = Ok sc (mk_chat o rest) /\
  swallow_prompt_from signed sc (mk_chat o (b :: rest)) =
  match rest with
  | [] => Fatal ECOMM LostConnection
  | b' :: rest' =>
      if Byte.eqb b' " "%byte then Ok tt (mk_chat o rest')
      else Fatal ECOMM (Unexpected (int_of_char signed " "%byte)
                          (int_of_char signed b'))
  end /\
  forall (sc0 : scanner) (o0 : ostream) (before : list byte),
    scan_after signed sc0 o0 before = Some (sc, o) ->
    scan_loop signed sc0 o0 (before ++ b :: rest) = Ok sc (mk_chat o rest).
Proof.
  intros Hb.
  assert (Hloop : scan_loop signed sc o (b :: rest) = Ok sc (mk_chat o rest)).
  { cbn [scan_loop]. rewrite scan_turn_eq, is_prompt_char_bytes.
    now destruct Hb as [-> | ->]. }
  split; [exact Hloop|]. split.
  - unfold swallow_prompt_from, bind. cbn [to from]. rewrite Hloop.
    change (char_of_int ch_space) with " "%byte.
    destruct rest as [|b' rest']; [reflexivity|]. apply chat_expect_cons.
  - intros sc0 o0 before Hrun.
    now rewrite (scan_loop_after _ _ _ _ _ _ Hrun).
Qed.

Lemma trim_no_nul (gs : growable_string) :
  Forall (fun b => b <> x00) gs ->
  Forall (fun b => b <> x00) (growable_string_trim_trailing_whitespace gs).
Proof.
  intros Hgs. destruct (trim_trailing_whitespace_split gs) as (ws & Hsplit & _).
  rewrite Hsplit in Hgs. now apply Forall_app in Hgs.
Qed.

(** C5, amended: at end-of-input the scanner is fatal. When the
    pre-prompt buffer, trailing whitespace trimmed, is empty the message is
    "lost connection to child"; when it is not, the message is that buffer
    as "%s" prints it, that is up to its first NUL byte: the whole trimmed
    buffer if the child sent no NUL. On an inbound stream that ends before
    any prompt byte the buffer is the plain text read. *)
Theorem eof_before_prompt (sc : scanner) (o : ostream) :
  swallow_prompt_from signed sc (mk_chat o []) =
  Fatal ECOMM
    (match growable_string_trim_trailing_whitespace (pre_prompt sc) with
     | [] => LostConnection
     | c :: pp => ChildText (c_string (c :: pp))
     end) /\
  (Forall (fun b => b <> x00) (pre_prompt sc) ->
   swallow_prompt_from signed sc (mk_chat o []) =
   Fatal ECOMM
     (match growable_string_trim_trailing_whitespace (pre_prompt sc) with
      | [] => LostConnection
      | c :: pp => ChildText (c :: pp)
      end)) /\
  forall bytes : list byte,
    Forall (fun b => b <> "#"%byte /\ b <> "$"%byte) bytes ->
    o_error o = false ->
    swallow_prompt_from signed sc (mk_chat o bytes) =
    Fatal ECOMM (eof_message (pre_prompt sc ++ plain_text signed sc o bytes)).
Proof.
  assert (Heof : swallow_prompt_from signed sc (mk_chat o []) =
                 Fatal ECOMM (eof_message (pre_prompt sc))).
  { unfold swallow_prompt_from, bind. cbn [to from scan_loop].
    now rewrite scan_eof_message. }
  split; [exact Heof|]. split.
  - intros Hnul. rewrite Heof. unfold eof_message.
    apply trim_no_nul in Hnul.
    destruct (growable_string_trim_trailing_whitespace (pre_prompt sc))
      as [|c pp]; [reflexivity|].
    now rewrite (c_string_no_nul _ Hnul).
  - intros bytes Hnp Ho. unfold swallow_prompt_from, bind. cbn [to from].
    rewrite scan_loop_no_prompt; [reflexivity| |exact Ho].
    eapply Forall_impl; [|exact Hnp]. intros b [H1 H2].
    rewrite is_prompt_char_bytes.
    now rewrite (byte_eqb_neq _ _ H1), (byte_eqb_neq _ _ H2).
Qed.

(** C8: in state AFTER_ESC a byte other than '[' sends the scanner back to
    NORMAL and is dropped, the buffer left as it was; and in every run the
    buffer grows only by the bytes read in state NORMAL that are neither
    ESC nor a prompt character, one turn at a time and over the whole run. *)
Theorem pre_prompt_grows_in_normal_only :
  (forall (arg : Z) (buf : growable_string) (o : ostream) (c : byte),
      c <> "["%byte ->
      scan_switch signed (mk_scanner arg S_AFTER_ESC buf) c o =
      Some (mk_scanner arg S_NORMAL buf, o)) /\
  (forall (sc sc' : scanner) (o o' : ostream) (b : byte),
      scan_turn signed sc o b = Continue sc' o' ->
      pre_prompt sc' =
      pre_prompt sc ++ (if plain_read (state sc, b) then [b] else [])) /\
  (forall (bytes : list byte) (sc sc' : scanner) (o o' : ostream),
      scan_after signed sc o bytes = Some (sc', o') ->
      pre_prompt sc' =
      pre_prompt sc ++ map snd (filter plain_read (scan_reads signed sc o bytes))).
Proof.
  split; [|split].
  - intros arg buf o c Hc. unfold scan_switch. cbn [state csi_arg pre_prompt].
    rewrite int_of_char_const by (unfold ch_lbracket; lia).
    change (byte_of_int ch_lbracket) with "["%byte.
    now rewrite (byte_eqb_neq _ _ Hc).
  - apply scan_turn_pre_prompt.
  - apply scan_after_pre_prompt.
Qed.

(** C10: the CSI argument is kept in [unsigned] arithmetic: each digit
    makes it (10 * arg + digit) mod 2^32; so a status query whose decimal
    argument is not 5 (not 6) but congruent to it modulo 2^32 is answered
    as the query 5 (the query 6) is. *)
Theorem csi_argument_wraps :
  (forall (arg : Z) (buf : growable_string) (o : ostream) (c : byte),
      is_digit c = true ->
      scan_switch signed (mk_scanner arg S_AFTER_CSI buf) c o =
      Some (mk_scanner ((10 * arg + digit_of c) mod 2 ^ 32) S_AFTER_CSI buf,
            o)) /\
  (exists digits : list byte,
      Forall (fun c => is_digit c = true) digits /\
      decimal_value digits <> 5 /\
      decimal_value digits mod 2 ^ 32 = 5 /\
      forall (sc : scanner) (o : ostream),
        state sc = S_NORMAL -> o_error o = false ->
        scan_after signed sc o (status_query digits) =
        Some (mk_scanner 5 S_NORMAL (pre_prompt sc),
              sent_flushed o [x1b; "["; "0"; "n"]%byte)) /\
  (exists digits : list byte,
      Forall (fun c => is_digit c = true) digits /\
      decimal_value digits <> 6 /\
      decimal_value digits mod 2 ^ 32 = 6 /\
      forall (sc : scanner) (o : ostream),
        state sc = S_NORMAL -> o_error o = false ->
        scan_after signed sc o (status_query digits) =
        Some (mk_scanner 6 S_NORMAL (pre_prompt sc),
              sent_flushed o
                [x1b; "["; "2"; "5"; ";"; "8"; "0"; "R"]%byte)).
Proof.
  split; [|split].
  - intros arg buf o c Hc. apply scan_switch_digit. exact Hc.
  - exists (lit "4294967301").
    assert (Hd : Forall (fun c => is_digit c = true) (lit "4294967301"))
      by (repeat constructor).
    split; [exact Hd|]. split; [discriminate|]. split; [reflexivity|].
    intros sc o Hst Ho. now rewrite (scan_after_status_query _ _ _ Hd Hst Ho).
  - exists (lit "4294967302").
    assert (Hd : Forall (fun c => is_digit c = true) (lit "4294967302"))
      by (repeat constructor).
    split; [exact Hd|]. split; [discriminate|]. split; [reflexivity|].
    intros sc o Hst Ho. now rewrite (scan_after_status_query _ _ _ Hd Hst Ho).
Qed.

End Scanner.

(** ** talk *)

(** Decide the comparisons of known bytes in the goal. *)
Ltac decide_bytes :=
  repeat match goal with
         | |- context [Byte.eqb ?a ?b] =>
             let v := eval vm_compute in (Byte.eqb a b) in
             match v with
             | true => change (Byte.eqb a b) with true
             | false => change (Byte.eqb a b) with false
             end
         end;
  rewrite ?andb_false_r; cbv beta iota.

(** Run the next read of a computation on a stream whose head is known. *)
Ltac read_byte :=
  first [ rewrite chat_expect_cons | rewrite chat_expect_maybe_cons ];
  decide_bytes.

(** Sending the command line, lines 152-159, and going on with [k]. *)
Lemma talk_send_then {B} (what : list byte) (o : ostream) (f : list byte)
    (k : M B) :
  Forall (fun c => c <> x00) what ->
  (checked_write (fputs what) ;;
   checked_write (putc ch_lf) ;;
   checked_write fflush ;; k)%chat (mk_chat o f) =
  if o_error o then Fatal ECOMM LostConnection
  else k (mk_chat (sent_flushed o (what ++ [x0a])) f).
Proof.
  intros Hwhat. unfold bind, checked_write, fputs, putc.
  cbn [to from o_error o_buffer o_sent].
  destruct (o_error o); [reflexivity|].
  cbn [to from o_error o_buffer o_sent].
  rewrite fflush_working by reflexivity.
  cbn [to from o_error o_buffer o_sent].
  rewrite (c_string_no_nul _ Hwhat). unfold sent_flushed.
  now rewrite <- app_assoc.
Qed.

Section Talk.

Variable signed : bool.
Variable SWALLOW : Z.

Lemma char_is_nul (c : byte) :
  (int_of_char signed c =? ch_nul) = Byte.eqb c x00.
Proof. now rewrite int_of_char_const by (unfold ch_nul; lia). Qed.

(** The echo of a C string is read back byte by byte. *)
Lemma expect_echo_ok (what : list byte) (o : ostream) (rest : list byte) :
  Forall (fun c => c <> x00) what ->
  expect_echo signed what (mk_chat o (what ++ rest)) = Ok tt (mk_chat o rest).
Proof.
  induction 1 as [|c what Hc _ IH]; [reflexivity|].
  cbn [expect_echo app]. rewrite char_is_nul, (byte_eqb_neq _ _ Hc).
  unfold bind. now rewrite chat_expect_cons, byte_eqb_refl.
Qed.

(** A wrong first byte of the echo is fatal. *)
Lemma expect_echo_mismatch (c b : byte) (what : list byte) (o : ostream)
    (rest : list byte) :
  c <> x00 -> b <> c ->
  expect_echo signed (c :: what) (mk_chat o (b :: rest)) =
  Fatal ECOMM (Unexpected (int_of_char signed c) (int_of_char signed b)).
Proof.
  intros Hc Hb. cbn [expect_echo]. rewrite char_is_nul, (byte_eqb_neq _ _ Hc).
  unfold bind. now rewrite chat_expect_cons, (byte_eqb_neq _ _ Hb).
Qed.

Lemma expect_line_end_crlf (o : ostream) (rest : list byte) :
  expect_line_end signed (mk_chat o (x0d :: x0a :: rest)) =
  Ok tt (mk_chat o rest).
Proof.
  unfold expect_line_end, bind.
  change (char_of_int ch_cr) with x0d. change (char_of_int ch_lf) with x0a.
  now do 3 read_byte.
Qed.

Lemma expect_line_end_crcrlf (o : ostream) (rest : list byte) :
  expect_line_end signed (mk_chat o (x0d :: x0d :: x0a :: rest)) =
  Ok tt (mk_chat o rest).
Proof.
  unfold expect_line_end, bind.
  change (char_of_int ch_cr) with x0d. change (char_of_int ch_lf) with x0a.
  now do 3 read_byte.
Qed.

(** The line ends [expect_line_end] accepts: "\r\n", "\r\r\n" and, where
    chars are signed, also '\r' 0xff '\n', the byte 0xff being lost when it
    should have been pushed back. *)
Lemma expect_line_end_accepts (o o' : ostream) (f rest : list byte) :
  expect_line_end signed (mk_chat o f) = Ok tt (mk_chat o' rest) <->
  o' = o /\
  (f = x0d :: x0a :: rest \/ f = x0d :: x0d :: x0a :: rest \/
   signed = true /\ f = x0d :: xff :: x0a :: rest).
Proof.
  split.
  - unfold expect_line_end, bind.
    change (char_of_int ch_cr) with x0d. change (char_of_int ch_lf) with x0a.
    destruct f as [|b1 f1]; [discriminate|].
    read_byte.
    destruct (Byte.eqb b1 x0d) eqn:E1; [|discriminate].
    apply Byte.byte_dec_bl in E1. subst b1.
    destruct f1 as [|b2 f2]; [discriminate|].
    read_byte.
    destruct (Byte.eqb b2 x0d) eqn:E2.
    + apply Byte.byte_dec_bl in E2. subst b2.
      destruct f2 as [|b3 f3]; [discriminate|].
      read_byte.
      destruct (Byte.eqb b3 x0a) eqn:E3; [|discriminate].
      apply Byte.byte_dec_bl in E3. subst b3.
      intros [= <- <-]. auto.
    + destruct (signed && Byte.eqb b2 xff) eqn:E4.
      * apply andb_true_iff in E4 as [-> E4].
        apply Byte.byte_dec_bl in E4. subst b2.
        destruct f2 as [|b3 f3]; [discriminate|].
        read_byte.
        destruct (Byte.eqb b3 x0a) eqn:E3; [|discriminate].
        apply Byte.byte_dec_bl in E3. subst b3.
        intros [= <- <-]. auto.
      * read_byte.
        destruct (Byte.eqb b2 x0a) eqn:E3; [|discriminate].
        apply Byte.byte_dec_bl in E3. subst b2.
        intros [= <- <-]. auto.
  - intros [-> [-> | [-> | [-> ->]]]].
    + apply expect_line_end_crlf.
    + apply expect_line_end_crcrlf.
    + reflexivity.
Qed.

(** Where chars are unsigned the accepted line ends are the two of the
    specification, and any other inbound text is fatal. *)
Lemma expect_line_end_unsigned (o : ostream) (f : list byte) :
  signed = false ->
  (exists rest, (f = x0d :: x0a :: rest \/ f = x0d :: x0d :: x0a :: rest) /\
                expect_line_end signed (mk_chat o f) = Ok tt (mk_chat o rest))
  \/
  ((forall rest, f <> x0d :: x0a :: rest /\ f <> x0d :: x0d :: x0a :: rest) /\
   exists e m, expect_line_end signed (mk_chat o f) = Fatal e m).
Proof.
  intros Hs.
  destruct (expect_line_end signed (mk_chat o f)) as [[] [o' rest]|e m] eqn:E.
  - left. exists rest. apply expect_line_end_accepts in E.
    destruct E as [-> [H | [H | [H _]]]]; [| |congruence].
    + now split; [left|].
    + now split; [right|].
  - right. split; [|now exists e, m].
    intros rest. split; intros ->.
    + now rewrite expect_line_end_crlf in E.
    + now rewrite expect_line_end_crcrlf in E.
Qed.

Lemma swallow_requested_no (flags : Z) :
  Z.land flags SWALLOW = 0 -> swallow_requested SWALLOW flags = false.
Proof. unfold swallow_requested. now intros ->. Qed.

Lemma swallow_requested_yes (flags : Z) :
  Z.land flags SWALLOW <> 0 -> swallow_requested SWALLOW flags = true.
Proof.
  unfold swallow_requested. intros H. apply Z.eqb_neq in H. now rewrite H.
Qed.

(** The status query ESC [ 6 n in place of the first echoed byte is read
    and the echo check starts at the first byte of the command. *)
Lemma first_echo_status_query (c : byte) (what : list byte) (flags : Z)
    (o : ostream) (rest : list byte) :
  c <> x00 -> c <> x1b ->
  Z.land flags SWALLOW <> 0 ->
  first_echo signed SWALLOW (c :: what) flags
    (mk_chat o (x1b :: "[" :: "6" :: "n" :: rest)%byte) =
  Ok (c :: what) (mk_chat o rest).
Proof.
  intros Hc Hesc Hflag. unfold first_echo.
  rewrite (swallow_requested_yes _ Hflag). cbn [deref hd].
  rewrite char_is_nul, (byte_eqb_neq _ _ Hc). cbn [negb andb].
  change (char_of_int ch_esc) with x1b.
  change (char_of_int ch_lbracket) with "["%byte.
  change (char_of_int ch_6) with "6"%byte.
  change (char_of_int ch_n) with "n"%byte.
  unfold bind. rewrite chat_expect_maybe_cons.
  assert (Hne : x1b <> c) by congruence.
  rewrite (byte_eqb_neq _ _ Hne). decide_bytes. cbn [negb].
  now do 4 read_byte.
Qed.

(** A first byte that is neither the first byte of the command nor ESC is
    left in the stream, unless it is the byte 0xff read as a signed char. *)
Lemma first_echo_stray_byte (c b : byte) (what : list byte) (flags : Z)
    (o : ostream) (rest : list byte) :
  c <> x00 -> b <> c -> b <> x1b ->
  signed = false \/ b <> xff ->
  Z.land flags SWALLOW <> 0 ->
  first_echo signed SWALLOW (c :: what) flags (mk_chat o (b :: rest)) =
  Ok (c :: what) (mk_chat o (b :: rest)).
Proof.
  intros Hc Hbc Hesc Hff Hflag. unfold first_echo.
  rewrite (swallow_requested_yes _ Hflag). cbn [deref hd].
  rewrite char_is_nul, (byte_eqb_neq _ _ Hc). cbn [negb andb].
  change (char_of_int ch_esc) with x1b.
  unfold bind. rewrite (chat_expect_maybe_unread _ _ _ _ _ Hbc Hff).
  cbn [negb]. now rewrite (chat_expect_maybe_unread _ _ _ _ _ Hesc Hff).
Qed.

(** C1: without the prompt-swallow flag, for a command text without
    newline bytes and an inbound stream that starts with the command text
    and "\r\n", talk returns normally, has sent the command text and a
    newline, and leaves the inbound stream right after the '\n'. *)
Theorem talk_echo_ok (what tail : list byte) (flags : Z) (o : ostream) :
  Forall (fun c => c <> x00) what ->
  ~ In x0a what ->
  Z.land flags SWALLOW = 0 ->
  o_error o = false ->
  chat_talk_at signed SWALLOW what flags
    (mk_chat o (what ++ x0d :: x0a :: tail)) =
  Ok tt (mk_chat (sent_flushed o (what ++ [x0a])) tail).
Proof.
  intros Hwhat _ Hflag Ho. unfold chat_talk_at, first_echo.
  rewrite (swallow_requested_no _ Hflag). cbn [andb].
  unfold bind at 1. unfold ret at 1.
  rewrite (talk_send_then _ _ _ _ Hwhat), Ho.
  unfold bind, ret. rewrite (expect_echo_ok _ _ _ Hwhat).
  apply expect_line_end_crlf.
Qed.

(** With the prompt-swallow flag, a status query ESC [ 6 n that comes
    after the prompt and before the echo is read and not answered: the
    outbound stream gets the command line and nothing else, and the echo is
    checked from the first byte of the command. *)
Lemma talk_absorbs_status_query (c : byte) (what tail : list byte)
    (flags : Z) (cc cc1 : chat) :
  Forall (fun b => b <> x00) (c :: what) ->
  c <> x1b ->
  Z.land flags SWALLOW <> 0 ->
  chat_swallow_prompt signed cc = Ok tt cc1 ->
  o_error (to cc1) = false ->
  from cc1 = (x1b :: "[" :: "6" :: "n" :: c :: what ++ x0d :: x0a :: tail)%byte ->
  chat_talk_at signed SWALLOW (c :: what) flags cc =
  Ok tt (mk_chat (sent_flushed (to cc1) (c :: what ++ [x0a])) tail).
Proof.
  intros Hwhat Hesc Hflag Hprompt Ho Hfrom. unfold chat_talk_at.
  rewrite (swallow_requested_yes _ Hflag).
  unfold bind at 1. rewrite Hprompt.
  destruct cc1 as [o1 f1]. cbn [to from] in Ho, Hfrom. subst f1.
  rewrite (talk_send_then _ _ _ _ Hwhat), Ho.
  unfold bind at 1.
  rewrite first_echo_status_query;
    [|now inversion Hwhat|exact Hesc|exact Hflag].
  unfold bind.
  rewrite (expect_echo_ok (c :: what) _ (x0d :: x0a :: tail) Hwhat).
  apply expect_line_end_crlf.
Qed.

(** With the prompt-swallow flag, a first inbound byte that is neither the
    first byte of the command nor ESC is fatal, unless it is the byte 0xff
    read as a signed char. *)
Lemma talk_stray_first_byte_fatal (c b : byte) (what rest : list byte)
    (flags : Z) (cc cc1 : chat) :
  Forall (fun b => b <> x00) (c :: what) ->
  Z.land flags SWALLOW <> 0 ->
  chat_swallow_prompt signed cc = Ok tt cc1 ->
  from cc1 = b :: rest ->
  b <> c -> b <> x1b ->
  signed = false \/ b <> xff ->
  exists e m,
    chat_talk_at signed SWALLOW (c :: what) flags cc = Fatal e m.
Proof.
  intros Hwhat Hflag Hprompt Hfrom Hbc Hesc Hff. unfold chat_talk_at.
  rewrite (swallow_requested_yes _ Hflag).
  unfold bind at 1. rewrite Hprompt.
  destruct cc1 as [o1 f1]. cbn [from] in Hfrom. subst f1.
  rewrite (talk_send_then _ _ _ _ Hwhat).
  destruct (o_error o1); [now eauto|].
  assert (Hc : c <> x00) by now inversion Hwhat.
  unfold bind at 1.
  rewrite (first_echo_stray_byte _ _ _ _ _ _ Hc Hbc Hesc Hff Hflag).
  unfold bind at 1.
  rewrite (expect_echo_mismatch _ _ _ _ _ Hc Hbc). eauto.
Qed.

End Talk.

(** ** The engine on concrete sessions *)

(** The scanner reads "some text", answers the cursor query and stops
    right after the space that follows the '$'. *)
Example swallow_cursor_query (signed : bool) :
  chat_swallow_prompt signed
    (mk_chat ostream_open
       (lit "some text" ++ x1b :: lit "[6n$ " ++ lit "rest")) =
  Ok tt (mk_chat (mk_ostream false [] (x1b :: lit "[25;80R")) (lit "rest")).
Proof. now destruct signed. Qed.

Example swallow_ok_query (signed : bool) :
  chat_swallow_prompt signed (mk_chat ostream_open (x1b :: lit "[5n# ")) =
  Ok tt (mk_chat (mk_ostream false [] (x1b :: lit "[0n")) []).
Proof. now destruct signed. Qed.

(** A CSI sequence with another final byte is dropped whole, nothing is
    written and none of its bytes is taken for plain text. *)
Example swallow_other_csi (signed : bool) :
  chat_swallow_prompt signed (mk_chat ostream_open (x1b :: lit "[6m")) =
  Fatal ECOMM LostConnection.
Proof. now destruct signed. Qed.

Example talk_after_prompt_with_query (signed : bool) :
  chat_talk_at signed 1 (lit "ls") 1
    (mk_chat ostream_open
       (lit "$ " ++ x1b :: lit "[6nls" ++ [x0d; x0a])) =
  Ok tt (mk_chat (mk_ostream false [] (lit "ls" ++ [x0a])) []).
Proof. now destruct signed. Qed.

Lemma talk_echo_ok_witness :
  chat_talk_at true 1 (lit "ls") 0
    (mk_chat ostream_open (lit "ls" ++ x0d :: x0a :: lit "bin")) =
  Ok tt (mk_chat (sent_flushed ostream_open (lit "ls" ++ [x0a])) (lit "bin")).
Proof.
  apply (talk_echo_ok true 1 (lit "ls") (lit "bin") 0 ostream_open).
  - change (lit "ls") with ["l"; "s"]%byte. repeat constructor; discriminate.
  - change (lit "ls") with ["l"; "s"]%byte. cbn [In].
    intros [H | [H | H]]; [discriminate H | discriminate H | exact H].
  - reflexivity.
  - reflexivity.
Defined.

Lemma prompt_char_ends_scan_witness :
  scan_loop true (mk_scanner 6 S_AFTER_CSI (lit "boot")) ostream_open
    (lit "$ ls") =
  Ok (mk_scanner 6 S_AFTER_CSI (lit "boot")) (mk_chat ostream_open (lit " ls"))
  /\
  swallow_prompt_from true (mk_scanner 6 S_AFTER_CSI (lit "boot"))
    (mk_chat ostream_open (lit "$ ls")) =
  Ok tt (mk_chat ostream_open (lit "ls")) /\
  scan_loop true scanner_init ostream_open
    (lit "boot" ++ x1b :: lit "[6" ++ lit "$ ls") =
  Ok (mk_scanner 6 S_AFTER_CSI (lit "boot")) (mk_chat ostream_open (lit " ls")).
Proof.
  destruct (prompt_char_ends_scan true (mk_scanner 6 S_AFTER_CSI (lit "boot"))
              ostream_open "$"%byte (lit " ls") (or_intror eq_refl))
    as (Hloop & Hexpect & Hrun).
  split; [exact Hloop|]. split; [exact Hexpect|].
  apply (Hrun scanner_init ostream_open (lit "boot" ++ x1b :: lit "[6")).
  reflexivity.
Defined.

Lemma eof_before_prompt_witness :
  swallow_prompt_from true (mk_scanner 0 S_NORMAL (lit "no tty" ++ [x20; x0a]))
    (mk_chat ostream_open []) =
  Fatal ECOMM (ChildText (lit "no tty")) /\
  chat_swallow_prompt true
    (mk_chat ostream_open (lit "boot failed" ++ [x20; x0d; x0a])) =
  Fatal ECOMM (ChildText (lit "boot failed")).
Proof.
  destruct (eof_before_prompt true
              (mk_scanner 0 S_NORMAL (lit "no tty" ++ [x20; x0a]))
              ostream_open) as (_ & Hwhole & _).
  destruct (eof_before_prompt true scanner_init ostream_open)
    as (_ & _ & Hrun).
  split.
  - apply Hwhole. cbn [pre_prompt].
    repeat (apply Forall_cons; [discriminate|]). apply Forall_nil.
  - apply (Hrun (lit "boot failed" ++ [x20; x0d; x0a])).
    + repeat (apply Forall_cons; [split; discriminate|]). apply Forall_nil.
    + reflexivity.
Defined.

(** C5 as it was stated fails where the child has sent a NUL byte: the
    buffer read from 'a' 'b' NUL 'c' 'd' is those five bytes, nothing is
    trimmed, and the message is "ab", not the buffer. *)
Lemma eof_report_cut_at_nul :
  scan_after true scanner_init ostream_open (lit "ab" ++ x00 :: lit "cd") =
  Some (mk_scanner 0 S_NORMAL (lit "ab" ++ x00 :: lit "cd"), ostream_open) /\
  growable_string_trim_trailing_whitespace (lit "ab" ++ x00 :: lit "cd") =
  lit "ab" ++ x00 :: lit "cd" /\
  chat_swallow_prompt true
    (mk_chat ostream_open (lit "ab" ++ x00 :: lit "cd")) =
  Fatal ECOMM (ChildText (lit "ab")) /\
  chat_swallow_prompt true
    (mk_chat ostream_open (lit "ab" ++ x00 :: lit "cd")) <>
  Fatal ECOMM (ChildText (lit "ab" ++ x00 :: lit "cd")).
Proof. repeat split; try reflexivity. discriminate. Qed.

(** A buffer that starts with a NUL is not empty: the scanner reports an
    empty text, not "lost connection to child". *)
Example eof_report_empty_text :
  chat_swallow_prompt true (mk_chat ostream_open [x00; "a"%byte]) =
  Fatal ECOMM (ChildText []).
Proof. reflexivity. Qed.

(** A status query of another argument met on a stream in error with
    nothing in its buffer: no write is made, the scanner goes on and finds
    the prompt. *)
Example swallow_other_query_no_write :
  chat_swallow_prompt true
    (mk_chat (mk_ostream true [] []) (x1b :: lit "[7n$ ")) =
  Ok tt (mk_chat (mk_ostream true [] []) []).
Proof. reflexivity. Qed.

Lemma pre_prompt_grows_in_normal_only_witness :
  scan_switch true (mk_scanner 7 S_AFTER_ESC (lit "ab")) "m"%byte ostream_open
  = Some (mk_scanner 7 S_NORMAL (lit "ab"), ostream_open).
Proof.
  apply (proj1 (pre_prompt_grows_in_normal_only true)). discriminate.
Defined.

Lemma csi_argument_wraps_witness :
  scan_switch true (mk_scanner 429496730 S_AFTER_CSI []) "1"%byte ostream_open
  = Some (mk_scanner 5 S_AFTER_CSI [], ostream_open).
Proof.
  apply (proj1 (csi_argument_wraps true) 429496730 [] ostream_open "1"%byte).
  reflexivity.
Defined.

(** C7 (fails where char is signed): [chat_expect_maybe] reads the byte
    0xff while it expects 'l', returns false, and the byte is not back in
    the stream: the next read returns the 's' behind it. The claim has
    every mismatching byte pushed back. *)
Theorem expect_maybe_loses_ff :
  chat_expect_maybe true "l"%byte (mk_chat ostream_open [xff; "s"%byte]) =
  Ok false (mk_chat ostream_open ["s"%byte]) /\
  chat_getc (mk_chat ostream_open ["s"%byte]) =
  Ok "s"%byte (mk_chat ostream_open []).
Proof. split; reflexivity. Qed.

(** C6 (fails where char is signed): after the echo of "ls", talk returns
    normally on the line end '\r' 0xff '\n', which is neither "\r\n" nor
    "\r\r\n": the 0xff is lost by the failed push-back. The claim has every
    other line end fatal. *)
Theorem talk_accepts_cr_ff_lf :
  chat_talk_at true 1 (lit "ls") 0
    (mk_chat ostream_open (lit "ls" ++ [x0d; xff; x0a])) =
  Ok tt (mk_chat (mk_ostream false [] (lit "ls" ++ [x0a])) []).
Proof. reflexivity. Qed.

(** C2 (fails where char is signed): with the prompt-swallow flag, the
    first inbound byte after the prompt is 0xff, neither the 'l' of the
    command "ls" nor ESC, and talk returns normally: the 0xff is lost by the
    failed push-back and the echo behind it is accepted. The claim has the
    exchange fail fatally. *)
Theorem talk_accepts_stray_ff :
  chat_talk_at true 1 (lit "ls") 1
    (mk_chat ostream_open (lit "$ " ++ xff :: lit "ls" ++ [x0d; x0a])) =
  Ok tt (mk_chat (mk_ostream false [] (lit "ls" ++ [x0a])) []).
Proof. reflexivity. Qed.

(** * Further properties of the engine *)

(** ** The exact-match primitive *)

(** X1: on either kind of platform [chat_expect] returns normally exactly
    when the next inbound byte is the expected one, 0xff included; it then
    has consumed that byte and nothing else, and has written nothing. *)
Theorem chat_expect_accepts (signed : bool) (expected : byte)
    (o o' : ostream) (f rest : list byte) :
  chat_expect signed expected (mk_chat o f) = Ok tt (mk_chat o' rest) <->
  o' = o /\ f = expected :: rest.
Proof.
  split.
  - destruct f as [|b f']; [discriminate|].
    rewrite chat_expect_cons.
    destruct (Byte.eqb b expected) eqn:E; [|discriminate].
    apply Byte.byte_dec_bl in E. subst b. now intros [= <- <-].
  - intros [-> ->]. now rewrite chat_expect_cons, byte_eqb_refl.
Qed.

Lemma chat_expect_to (signed : bool) (expected : byte) (cc cc' : chat)
    (u : unit) :
  chat_expect signed expected cc = Ok u cc' ->
  to cc' = to cc /\ from cc = expected :: from cc'.
Proof.
  destruct cc as [o [|b f]]; [discriminate|].
  rewrite chat_expect_cons.
  destruct (Byte.eqb b expected) eqn:E; [|discriminate].
  apply Byte.byte_dec_bl in E. subst b. now intros [= _ <-].
Qed.

(** The low eight bits of a promoted char are the byte that represents
    it, on either kind of platform. *)
Lemma int_of_char_mod (signed : bool) (c : byte) :
  int_of_char signed c mod 256 = byte_val c.
Proof.
  unfold int_of_char. pose proof (byte_val_range c) as Hc.
  destruct (signed && (128 <=? byte_val c)).
  - replace (byte_val c - 256) with (byte_val c + (-1) * 256) by lia.
    rewrite Z.mod_add by lia. apply Z.mod_small. lia.
  - apply Z.mod_small. lia.
Qed.

Lemma result_chars_ok {A} (r1 r2 : result A) (a : A) (cc : chat) :
  result_chars r1 = result_chars r2 -> r1 = Ok a cc <-> r2 = Ok a cc.
Proof.
  destruct r1, r2; cbn [result_chars]; intros H; split; intros H';
    congruence.
Qed.

Lemma chat_expect_signed (expected : byte) (cc : chat) :
  result_chars (chat_expect true expected cc) =
  result_chars (chat_expect false expected cc).
Proof.
  destruct cc as [o [|b f]]; [reflexivity|]. rewrite !chat_expect_cons.
  destruct (Byte.eqb b expected); [reflexivity|].
  cbn [result_chars message_chars]. now rewrite !int_of_char_mod.
Qed.

(** ** The scanner on both kinds of platform *)

Lemma digit_test (signed : bool) (c : byte) :
  (ch_0 <=? int_of_char signed c) && (int_of_char signed c <=? ch_9) =
  is_digit c.
Proof.
  unfold is_digit, int_of_char, ch_0, ch_9.
  pose proof (byte_val_range c) as Hc.
  destruct signed; [|reflexivity]. cbn [andb].
  destruct (Z.leb_spec 128 (byte_val c)); [|reflexivity].
  destruct (Z.leb_spec 48 (byte_val c - 256)),
    (Z.leb_spec (byte_val c - 256) 57), (Z.leb_spec 48 (byte_val c)),
    (Z.leb_spec (byte_val c) 57); cbn [andb]; try reflexivity; lia.
Qed.

Lemma scan_switch_signed (sc : scanner) (c : byte) (o : ostream) :
  scan_switch true sc c o = scan_switch false sc c o.
Proof.
  unfold scan_switch. destruct (state sc).
  - now rewrite !int_of_char_const by (unfold ch_esc; lia).
  - now rewrite !int_of_char_const by (unfold ch_lbracket; lia).
  - rewrite !digit_test. destruct (is_digit c) eqn:Hd.
    + destruct (digit_char true c Hd) as [-> _].
      now destruct (digit_char false c Hd) as [-> _].
    + now rewrite !int_of_char_const by (unfold ch_n; lia).
Qed.

Lemma scan_turn_signed (sc : scanner) (o : ostream) (b : byte) :
  scan_turn true sc o b = scan_turn false sc o b.
Proof.
  now rewrite !scan_turn_eq, !is_prompt_char_bytes, scan_switch_signed.
Qed.

Lemma scan_loop_signed (f : list byte) :
  forall (sc : scanner) (o : ostream),
    scan_loop true sc o f = scan_loop false sc o f.
Proof.
  induction f as [|b f IH]; intros sc o; [reflexivity|].
  cbn [scan_loop]. rewrite scan_turn_signed.
  now destruct (scan_turn false sc o b).
Qed.

(** X2: the prompt scanner does the same on a platform with signed chars
    and on one with unsigned chars, whatever the inbound bytes are, up to
    the promotion of the chars that the message "expected ..., found ..."
    names: it returns normally on the one exactly when it does on the
    other, with the same session, and where it dies it dies on both, at the
    same place and with the same message, the [int] given for a char from
    0x80 on being negative on the one and positive on the other. *)
Theorem chat_swallow_prompt_signedness (cc : chat) :
  result_chars (chat_swallow_prompt true cc) =
  result_chars (chat_swallow_prompt false cc) /\
  forall cc' : chat,
    chat_swallow_prompt true cc = Ok tt cc' <->
    chat_swallow_prompt false cc = Ok tt cc'.
Proof.
  assert (Hsame : result_chars (chat_swallow_prompt true cc) =
                  result_chars (chat_swallow_prompt false cc)).
  { unfold chat_swallow_prompt, swallow_prompt_from, bind.
    rewrite scan_loop_signed.
    destruct (scan_loop false scanner_init (to cc) (from cc));
      [|reflexivity].
    apply chat_expect_signed. }
  split; [exact Hsame|]. intros cc'. now apply result_chars_ok.
Qed.

(** ** Runs of the scanner *)

Section ScannerRuns.

Variable signed : bool.

Lemma scan_loop_prompt (sc : scanner) (o : ostream) (p : byte)
    (rest : list byte) :
  p = "#"%byte \/ p = "$"%byte ->
  scan_loop signed sc o (p :: rest) = Ok sc (mk_chat o rest).
Proof.
  intros Hp. cbn [scan_loop]. rewrite scan_turn_eq, is_prompt_char_bytes.
  now destruct Hp as [-> | ->].
Qed.

Lemma not_prompt_char (b : byte) :
  not_prompt b -> is_prompt_char signed b = false.
Proof.
  intros [H1 H2]. rewrite is_prompt_char_bytes.
  now rewrite (byte_eqb_neq _ _ H1), (byte_eqb_neq _ _ H2).
Qed.

Lemma scan_turn_plain (arg : Z) (buf : growable_string) (o : ostream)
    (b : byte) :
  plain_byte b ->
  scan_turn signed (mk_scanner arg S_NORMAL buf) o b =
  Continue (mk_scanner arg S_NORMAL (buf ++ [b])) o.
Proof.
  intros [Hesc Hnp]. rewrite scan_turn_eq, (not_prompt_char _ Hnp).
  unfold scan_switch. cbn [state csi_arg pre_prompt].
  rewrite int_of_char_const by (unfold ch_esc; lia).
  change (byte_of_int ch_esc) with x1b.
  now rewrite (byte_eqb_neq _ _ Hesc).
Qed.

Lemma scan_after_plain (text : list byte) :
  forall (arg : Z) (buf : growable_string) (o : ostream),
    Forall plain_byte text ->
    scan_after signed (mk_scanner arg S_NORMAL buf) o text =
    Some (mk_scanner arg S_NORMAL (buf ++ text), o).
Proof.
  induction text as [|b text IH]; intros arg buf o Hplain.
  - cbn. now rewrite app_nil_r.
  - inversion Hplain as [|? ? Hb Htext]; subst.
    cbn [scan_after]. rewrite (scan_turn_plain _ _ _ _ Hb), (IH _ _ _ Htext).
    now rewrite <- app_assoc.
Qed.

(** X3: plain text, that is bytes other than ESC, '#' and '$', followed
    by a prompt character and a space: the scanner returns normally right
    after the space and does not touch the outbound stream at all, be it in
    error or not. *)
Theorem swallow_plain_text_prompt (text rest : list byte) (p : byte)
    (o : ostream) :
  Forall plain_byte text ->
  p = "#"%byte \/ p = "$"%byte ->
  chat_swallow_prompt signed (mk_chat o (text ++ p :: " "%byte :: rest)) =
  Ok tt (mk_chat o rest).
Proof.
  intros Htext Hp. unfold chat_swallow_prompt, swallow_prompt_from, bind.
  cbn [to from]. unfold scanner_init.
  rewrite (scan_loop_after _ _ _ _ _ _ _ (scan_after_plain _ _ _ _ Htext)).
  rewrite (scan_loop_prompt _ _ _ _ Hp).
  change (char_of_int ch_space) with " "%byte.
  now rewrite chat_expect_cons, byte_eqb_refl.
Qed.

(** X4: plain text and then end-of-input: the scanner dies with that
    text, trailing whitespace trimmed, as "%s" prints it, that is cut at
    its first NUL byte and whole if the child sent no NUL; and it dies with
    "lost connection to child" if the text is empty or all whitespace. The
    state of the outbound stream plays no part. *)
Theorem swallow_plain_text_eof (text : list byte) (o : ostream) :
  Forall plain_byte text ->
  chat_swallow_prompt signed (mk_chat o text) =
  Fatal ECOMM
    (match growable_string_trim_trailing_whitespace text with
     | [] => LostConnection
     | c :: pp => ChildText (c_string (c :: pp))
     end) /\
  (Forall (fun b => b <> x00) text ->
   chat_swallow_prompt signed (mk_chat o text) =
   Fatal ECOMM
     (match growable_string_trim_trailing_whitespace text with
      | [] => LostConnection
      | c :: pp => ChildText (c :: pp)
      end)).
Proof.
  intros Htext.
  assert (Heof : chat_swallow_prompt signed (mk_chat o text) =
                 Fatal ECOMM (eof_message text)).
  { unfold chat_swallow_prompt, swallow_prompt_from, bind.
    cbn [to from]. unfold scanner_init.
    rewrite <- (app_nil_r text) at 1.
    rewrite (scan_loop_after _ _ _ _ _ _ _ (scan_after_plain _ _ _ _ Htext)).
    cbn [scan_loop]. now rewrite scan_eof_message. }
  split; [exact Heof|].
  intros Hnul. rewrite Heof. unfold eof_message.
  apply trim_no_nul in Hnul.
  destruct (growable_string_trim_trailing_whitespace text) as [|c pp];
    [reflexivity|].
  now rewrite (c_string_no_nul _ Hnul).
Qed.

(** X5: the scanner stops at the first prompt character of the inbound
    stream: if a space follows it returns there, and if any other byte
    follows, or nothing, it is fatal; a prompt further on is never looked
    for. *)
Theorem swallow_stops_at_first_prompt (before rest : list byte) (p : byte)
    (o : ostream) :
  Forall not_prompt before ->
  p = "#"%byte \/ p = "$"%byte ->
  o_error o = false ->
  exists (sc' : scanner) (o' : ostream),
    scan_after signed scanner_init o before = Some (sc', o') /\
    chat_swallow_prompt signed (mk_chat o (before ++ p :: rest)) =
    match rest with
    | [] => Fatal ECOMM LostConnection
    | b :: rest' =>
        if Byte.eqb b " "%byte then Ok tt (mk_chat o' rest')
        else Fatal ECOMM (Unexpected (int_of_char signed " "%byte)
                            (int_of_char signed b))
    end.
Proof.
  intros Hbefore Hp Ho.
  destruct (scan_after_total signed before scanner_init o) as
    (sc' & o' & Hrun & _); [|exact Ho|].
  { eapply Forall_impl; [|exact Hbefore]. apply not_prompt_char. }
  exists sc', o'. split; [exact Hrun|].
  unfold chat_swallow_prompt, swallow_prompt_from, bind. cbn [to from].
  rewrite (scan_loop_after _ _ _ _ _ _ _ Hrun), (scan_loop_prompt _ _ _ _ Hp).
  change (char_of_int ch_space) with " "%byte.
  destruct rest as [|b rest']; [reflexivity|]. apply chat_expect_cons.
Qed.

(** *** Escape sequences *)

(** X6: a whole status query ESC [ digits n met in state NORMAL is
    answered by its own decimal argument alone, reduced modulo 2^32, leading
    zeros and the argument of an earlier sequence having no effect; the
    reply is flushed, the buffer is left as it was and the scan goes on in
    state NORMAL with the bytes behind the query. *)
Theorem status_query_scanned (digits rest : list byte) (sc : scanner)
    (o : ostream) :
  Forall (fun c => is_digit c = true) digits ->
  state sc = S_NORMAL ->
  o_error o = false ->
  scan_loop signed sc o (status_query digits ++ rest) =
  scan_loop signed
    (mk_scanner (decimal_value digits mod UINT_MODULUS) S_NORMAL
       (pre_prompt sc))
    (sent_flushed o (status_reply (decimal_value digits mod UINT_MODULUS)))
    rest.
Proof.
  intros Hd Hst Ho. apply scan_loop_after.
  now apply scan_after_status_query.
Qed.

Lemma scan_turn_csi_other (arg : Z) (buf : growable_string) (o : ostream)
    (c : byte) :
  is_digit c = false -> c <> "n"%byte -> not_prompt c ->
  scan_turn signed (mk_scanner arg S_AFTER_CSI buf) o c =
  Continue (mk_scanner arg S_NORMAL buf) o.
Proof.
  intros Hd Hn Hnp. rewrite scan_turn_eq, (not_prompt_char _ Hnp).
  unfold scan_switch. cbn [state csi_arg pre_prompt].
  rewrite digit_test, Hd.
  rewrite int_of_char_const by (unfold ch_n; lia).
  change (byte_of_int ch_n) with "n"%byte.
  now rewrite (byte_eqb_neq _ _ Hn).
Qed.

(** X7: a CSI sequence ESC [ digits c whose final byte c is neither a
    digit, nor 'n', nor a prompt character is dropped whole: nothing is
    written, no write is even tried, none of its bytes gets into the
    buffer, and the scanner is back in state NORMAL. *)
Theorem csi_sequence_abandoned (digits : list byte) (c : byte) (sc : scanner)
    (o : ostream) :
  Forall (fun d => is_digit d = true) digits ->
  is_digit c = false -> c <> "n"%byte -> not_prompt c ->
  state sc = S_NORMAL ->
  scan_after signed sc o (x1b :: "["%byte :: digits ++ [c]) =
  Some (mk_scanner (decimal_value digits mod UINT_MODULUS) S_NORMAL
          (pre_prompt sc), o).
Proof.
  intros Hd Hc Hn Hnp Hst. destruct sc as [arg st buf]. cbn in Hst. subst st.
  cbn [scan_after pre_prompt].
  rewrite scan_turn_esc, scan_turn_csi, scan_after_app.
  destruct (scan_after_digits signed digits 0 buf o Hd)
    as (arg' & -> & Harg & _); [now split|].
  cbn [scan_after]. rewrite (scan_turn_csi_other _ _ _ _ Hc Hn Hnp).
  unfold decimal_value. now rewrite Harg.
Qed.

Lemma digit_plain (c : byte) : is_digit c = true -> plain_byte c.
Proof.
  intros Hd. destruct (digit_char signed c Hd) as [_ Hr].
  repeat split; intros ->; unfold byte_val in Hr; cbn in Hr; lia.
Qed.

(** X8: an ESC right after an ESC does not start a sequence: both bytes
    are dropped, and a status query that follows the pair without an ESC of
    its own is not answered but taken for plain text. *)
Theorem escape_pair_hides_query (digits : list byte) (sc : scanner)
    (o : ostream) :
  Forall (fun d => is_digit d = true) digits ->
  state sc = S_NORMAL ->
  scan_after signed sc o (x1b :: status_query digits) =
  Some (mk_scanner (csi_arg sc) S_NORMAL
          (pre_prompt sc ++ "["%byte :: digits ++ ["n"%byte]), o).
Proof.
  intros Hd Hst. destruct sc as [arg st buf]. cbn in Hst. subst st.
  unfold status_query. cbn [csi_arg pre_prompt].
  change (x1b :: x1b :: "["%byte :: digits ++ ["n"%byte])
    with ([x1b; x1b] ++ "["%byte :: digits ++ ["n"%byte]).
  rewrite scan_after_app.
  assert (Hpair : scan_after signed (mk_scanner arg S_NORMAL buf) o [x1b; x1b]
                  = Some (mk_scanner arg S_NORMAL buf, o))
    by now destruct signed.
  rewrite Hpair. apply scan_after_plain.
  constructor; [repeat split; discriminate|].
  apply Forall_app. split.
  - eapply Forall_impl; [|exact Hd]. apply digit_plain.
  - constructor; [repeat split; discriminate | constructor].
Qed.

(** *** What the scanner writes *)

Lemma sent_flushed_twice (o : ostream) (a b : list byte) :
  sent_flushed (sent_flushed o a) b = sent_flushed o (a ++ b).
Proof.
  unfold sent_flushed. cbn [o_sent o_buffer app].
  now rewrite <- !app_assoc.
Qed.

Lemma scan_switch_writes (sc sc' : scanner) (o o' : ostream) (c : byte) :
  scan_switch signed sc c o = Some (sc', o') ->
  o' = o \/ o' = sent_flushed o (status_reply (csi_arg sc)).
Proof.
  unfold scan_switch. destruct (state sc).
  - destruct (int_of_char signed c =? ch_esc); intros [= <- <-]; now left.
  - destruct (int_of_char signed c =? ch_lbracket); intros [= <- <-];
      now left.
  - destruct ((ch_0 <=? int_of_char signed c) && (int_of_char signed c <=? ch_9));
      [intros [= <- <-]; now left|].
    destruct (int_of_char signed c =? ch_n); [|intros [= <- <-]; now left].
    unfold fputs, sent_flushed, status_reply.
    destruct o as [err pending sent]. cbn [o_error o_buffer o_sent].
    destruct err.
    + destruct (csi_arg sc =? 5); [discriminate|].
      destruct (csi_arg sc =? 6); [discriminate|].
      unfold fflush. cbn [o_error o_buffer].
      destruct pending; [intros [= <- <-]; now left | discriminate].
    + destruct (csi_arg sc =? 5);
        [rewrite fflush_working by reflexivity; intros [= <- <-]; now right|].
      destruct (csi_arg sc =? 6);
        [rewrite fflush_working by reflexivity; intros [= <- <-]; now right|].
      rewrite fflush_working by reflexivity.
      cbn [o_error o_buffer o_sent]. intros [= <- <-]. right.
      now rewrite app_nil_r.
Qed.

Lemma scan_loop_writes (f : list byte) :
  forall (sc sc' : scanner) (o : ostream) (cc' : chat),
    scan_loop signed sc o f = Ok sc' cc' ->
    to cc' = o \/
    exists args : list Z,
      to cc' = sent_flushed o (List.concat (map status_reply args)).
Proof.
  induction f as [|b f IH]; intros sc sc' o cc'.
  - cbn [scan_loop]. now rewrite scan_eof_message.
  - cbn [scan_loop]. rewrite scan_turn_eq.
    destruct (is_prompt_char signed b); [intros [= <- <-]; now left|].
    destruct (scan_switch signed sc b o) as [[sc1 o1]|] eqn:Esw;
      [|discriminate].
    intros Hloop. apply IH in Hloop. apply scan_switch_writes in Esw.
    destruct Esw as [-> | ->]; [exact Hloop|]. right.
    destruct Hloop as [-> | [args ->]].
    + exists [csi_arg sc]. cbn [map List.concat]. now rewrite app_nil_r.
    + exists (csi_arg sc :: args). cbn [map List.concat].
      apply sent_flushed_twice.
Qed.

(** X9: whatever the child sends, a scan that finds the prompt has either
    left the outbound stream alone, or has flushed it with nothing added to
    what was there but a run of the two replies ESC [ 0 n and
    ESC [ 2 5 ; 8 0 R: the scanner writes nothing else, and leaves no reply
    in the buffer. *)
Theorem scanner_writes_replies_only (cc cc' : chat) :
  chat_swallow_prompt signed cc = Ok tt cc' ->
  to cc' = to cc \/
  exists args : list Z,
    to cc' = sent_flushed (to cc) (List.concat (map status_reply args)).
Proof.
  unfold chat_swallow_prompt, swallow_prompt_from, bind.
  destruct (scan_loop signed scanner_init (to cc) (from cc)) as [sc1 cc1|]
    eqn:Eloop; [|discriminate].
  intros Hexpect. apply chat_expect_to in Hexpect as [-> _].
  now apply scan_loop_writes in Eloop.
Qed.

End ScannerRuns.

(** ** talk, further *)

(** Sending any command line, lines 152-159, and going on with [k]: what
    is sent is the C string at [what] and a newline. *)
Lemma talk_send_c_string {B} (what : list byte) (o : ostream)
    (f : list byte) (k : M B) :
  (checked_write (fputs what) ;;
   checked_write (putc ch_lf) ;;
   checked_write fflush ;; k)%chat (mk_chat o f) =
  if o_error o then Fatal ECOMM LostConnection
  else k (mk_chat (sent_flushed o (c_string what ++ [x0a])) f).
Proof.
  unfold bind, checked_write, fputs, putc.
  cbn [to from o_error o_buffer o_sent].
  destruct (o_error o); [reflexivity|].
  cbn [to from o_error o_buffer o_sent].
  rewrite fflush_working by reflexivity.
  cbn [to from o_error o_buffer o_sent]. unfold sent_flushed.
  now rewrite <- app_assoc.
Qed.

Section TalkRuns.

Variable signed : bool.
Variable SWALLOW : Z.

Lemma expect_echo_ok_iff (what : list byte) :
  forall (o o' : ostream) (f rest : list byte),
    expect_echo signed what (mk_chat o f) = Ok tt (mk_chat o' rest) <->
    o' = o /\ f = c_string what ++ rest.
Proof.
  assert (Hret : forall (o o' : ostream) (f rest : list byte),
             @ret unit tt (mk_chat o f) = Ok tt (mk_chat o' rest) <->
             o' = o /\ f = rest).
  { intros o o' f rest. unfold ret.
    split; [now intros [= <- <-] | now intros [-> ->]]. }
  induction what as [|c what IH]; intros o o' f rest; [apply Hret|].
  cbn [expect_echo c_string]. rewrite char_is_nul.
  destruct (Byte.eqb c x00) eqn:Hc; [apply Hret|].
  unfold bind. destruct f as [|b f'].
  - rewrite chat_expect_eof. split; [discriminate | now intros [_ H]].
  - rewrite chat_expect_cons. destruct (Byte.eqb b c) eqn:Hb.
    + apply Byte.byte_dec_bl in Hb. subst b. rewrite IH. cbn [app].
      split; [now intros [-> ->] | now intros [-> [= ->]]].
    + apply Byte.eqb_false in Hb.
      split; [discriminate | intros [_ [= H _]]; now elim Hb].
Qed.

Lemma expect_echo_prefix (done : list byte) :
  forall (what : list byte) (o : ostream) (f : list byte),
    Forall (fun c => c <> x00) done ->
    expect_echo signed (done ++ what) (mk_chat o (done ++ f)) =
    expect_echo signed what (mk_chat o f).
Proof.
  induction done as [|c done IH]; intros what o f Hdone; [reflexivity|].
  inversion Hdone as [|? ? Hc Hrest]; subst.
  cbn [app expect_echo]. rewrite char_is_nul, (byte_eqb_neq _ _ Hc).
  unfold bind. rewrite chat_expect_cons, byte_eqb_refl. now apply IH.
Qed.

Lemma first_echo_not_requested (what : list byte) (flags : Z) :
  Z.land flags SWALLOW = 0 ->
  first_echo signed SWALLOW what flags = ret what.
Proof.
  intros Hflag. unfold first_echo.
  now rewrite (swallow_requested_no _ _ Hflag).
Qed.

(** X10: without the prompt-swallow flag talk returns normally exactly
    when the outbound stream takes the writes and the inbound stream starts
    with the command text and then "\r\n" or "\r\r\n" (or, where chars are
    signed, '\r' 0xff '\n'); it then has sent the command text and a
    newline, flushed, and has consumed the echoed line and not one byte
    more. The bytes behind the first NUL of [what] play no part. *)
Theorem talk_plain_accepts (what : list byte) (flags : Z) (o o' : ostream)
    (f rest : list byte) :
  Z.land flags SWALLOW = 0 ->
  chat_talk_at signed SWALLOW what flags (mk_chat o f) =
  Ok tt (mk_chat o' rest) <->
  o_error o = false /\
  o' = sent_flushed o (c_string what ++ [x0a]) /\
  (f = c_string what ++ x0d :: x0a :: rest \/
   f = c_string what ++ x0d :: x0d :: x0a :: rest \/
   signed = true /\ f = c_string what ++ x0d :: xff :: x0a :: rest).
Proof.
  intros Hflag. unfold chat_talk_at.
  rewrite (swallow_requested_no _ _ Hflag), (first_echo_not_requested _ _ Hflag).
  unfold bind at 1. unfold ret at 1. rewrite talk_send_c_string.
  destruct (o_error o); [split; [discriminate | now intros [H _]]|].
  unfold bind at 1. unfold ret at 1. unfold bind.
  set (o1 := sent_flushed o (c_string what ++ [x0a])).
  split.
  - destruct (expect_echo signed what (mk_chat o1 f)) as [[] [o2 f2]|] eqn:E;
      [|discriminate].
    apply expect_echo_ok_iff in E as [-> ->]. intros Hend.
    apply expect_line_end_accepts in Hend as [-> Hend].
    split; [reflexivity|]. split; [reflexivity|].
    destruct Hend as [-> | [-> | [-> ->]]]; auto.
  - intros (_ & -> & Hf).
    assert (Hecho : forall line_end,
               expect_echo signed what
                 (mk_chat o1 (c_string what ++ line_end)) =
               Ok tt (mk_chat o1 line_end))
      by (intros line_end; now apply expect_echo_ok_iff).
    destruct Hf as [-> | [-> | [-> ->]]]; rewrite Hecho;
      apply expect_line_end_accepts; auto.
Qed.

(** X11: without the flag, an echo that differs from the command: at the
    first wrong byte talk dies with the message that names the expected
    and the found byte, and if the inbound stream ends inside the echo it
    dies with "lost connection to child". *)
Theorem talk_wrong_echo_fatal (done todo rest : list byte) (c : byte)
    (flags : Z) (o : ostream) :
  Forall (fun b => b <> x00) (done ++ c :: todo) ->
  Z.land flags SWALLOW = 0 ->
  o_error o = false ->
  (forall b : byte,
      b <> c ->
      chat_talk_at signed SWALLOW (done ++ c :: todo) flags
        (mk_chat o (done ++ b :: rest)) =
      Fatal ECOMM (Unexpected (int_of_char signed c) (int_of_char signed b)))
  /\
  chat_talk_at signed SWALLOW (done ++ c :: todo) flags (mk_chat o done) =
  Fatal ECOMM LostConnection.
Proof.
  intros Hwhat Hflag Ho.
  apply Forall_app in Hwhat as Hsplit. destruct Hsplit as [Hdone Hrest].
  assert (Hc : c <> x00) by now inversion Hrest.
  unfold chat_talk_at.
  rewrite (swallow_requested_no _ _ Hflag), (first_echo_not_requested _ _ Hflag).
  split.
  - intros b Hb. unfold bind at 1. unfold ret at 1.
    rewrite talk_send_c_string, Ho.
    unfold bind at 1. unfold ret at 1. unfold bind at 1.
    rewrite (expect_echo_prefix _ _ _ _ Hdone).
    now rewrite (expect_echo_mismatch _ _ _ _ _ _ Hc Hb).
  - assert (Hcut : forall o1 : ostream,
               expect_echo signed (done ++ c :: todo) (mk_chat o1 done) =
               Fatal ECOMM LostConnection).
    { intros o1. rewrite <- (app_nil_r done) at 2.
      rewrite (expect_echo_prefix _ _ _ _ Hdone).
      cbn [expect_echo]. now rewrite char_is_nul, (byte_eqb_neq _ _ Hc). }
    unfold bind at 1. unfold ret at 1.
    rewrite talk_send_c_string, Ho.
    unfold bind at 1. unfold ret at 1. unfold bind at 1.
    now rewrite Hcut.
Qed.

Lemma talk_plain_crlf (what tail : list byte) (flags : Z) (o : ostream) :
  Forall (fun c => c <> x00) what ->
  Z.land flags SWALLOW = 0 ->
  o_error o = false ->
  chat_talk_at signed SWALLOW what flags
    (mk_chat o (what ++ x0d :: x0a :: tail)) =
  Ok tt (mk_chat (sent_flushed o (what ++ [x0a])) tail).
Proof.
  intros Hwhat Hflag Ho. unfold chat_talk_at.
  rewrite (swallow_requested_no _ _ Hflag), (first_echo_not_requested _ _ Hflag).
  unfold bind at 1. unfold ret at 1.
  rewrite (talk_send_then _ _ _ _ Hwhat), Ho.
  unfold bind, ret. rewrite (expect_echo_ok _ _ _ _ Hwhat).
  apply expect_line_end_crlf.
Qed.

Lemma first_echo_matched (c : byte) (what : list byte) (flags : Z)
    (o : ostream) (rest : list byte) :
  c <> x00 ->
  Z.land flags SWALLOW <> 0 ->
  first_echo signed SWALLOW (c :: what) flags (mk_chat o (c :: rest)) =
  Ok what (mk_chat o rest).
Proof.
  intros Hc Hflag. unfold first_echo. cbn [deref hd].
  rewrite (swallow_requested_yes _ _ Hflag).
  rewrite char_is_nul, (byte_eqb_neq _ _ Hc). cbn [negb andb].
  unfold bind. now rewrite chat_expect_maybe_cons, byte_eqb_refl.
Qed.

Lemma first_echo_empty (what : list byte) (flags : Z) :
  deref what = x00 ->
  first_echo signed SWALLOW what flags = ret what.
Proof.
  intros Hnul. unfold first_echo. rewrite Hnul, char_is_nul.
  cbn [Byte.eqb negb]. now rewrite andb_false_r.
Qed.

(** X12: with the prompt-swallow flag and no status query in the way, the
    ordinary echo is accepted as it is without the flag: after the prompt,
    the command text and "\r\n" or "\r\r\n" make talk return normally,
    the command line sent and flushed and the inbound stream left right
    after the '\n'. *)
Theorem talk_after_prompt_echo (what tail : list byte) (flags : Z)
    (cc cc1 : chat) :
  Forall (fun b => b <> x00) what ->
  Z.land flags SWALLOW <> 0 ->
  chat_swallow_prompt signed cc = Ok tt cc1 ->
  o_error (to cc1) = false ->
  from cc1 = what ++ x0d :: x0a :: tail \/
  from cc1 = what ++ x0d :: x0d :: x0a :: tail ->
  chat_talk_at signed SWALLOW what flags cc =
  Ok tt (mk_chat (sent_flushed (to cc1) (what ++ [x0a])) tail).
Proof.
  intros Hwhat Hflag Hprompt Ho Hfrom. unfold chat_talk_at.
  rewrite (swallow_requested_yes _ _ Hflag).
  unfold bind at 1. rewrite Hprompt.
  destruct cc1 as [o1 f1]. cbn [to from] in Ho, Hfrom.
  rewrite (talk_send_then _ _ _ _ Hwhat), Ho.
  set (o2 := sent_flushed o1 (what ++ [x0a])).
  assert (Hecho : forall line_end : list byte,
             (what' <- first_echo signed SWALLOW what flags ;;
              expect_echo signed what' ;;
              expect_line_end signed)%chat (mk_chat o2 (what ++ line_end)) =
             expect_line_end signed (mk_chat o2 line_end)).
  { intros line_end. destruct Hwhat as [|c what Hc Hwhat].
    - rewrite first_echo_empty by reflexivity. reflexivity.
    - unfold bind at 1. cbn [app].
      rewrite (first_echo_matched _ _ _ _ _ Hc Hflag).
      unfold bind. now rewrite (expect_echo_ok _ _ _ _ Hwhat). }
  destruct Hfrom as [-> | ->]; rewrite Hecho.
  - apply expect_line_end_crlf.
  - apply expect_line_end_crcrlf.
Qed.

(** X13: with the flag, an ESC in place of the first echoed byte commits
    talk to the status query: unless the bytes '[' '6' 'n' follow it, the
    exchange is fatal, on either kind of platform. *)
Theorem talk_query_deviation_fatal (c : byte) (what after : list byte)
    (flags : Z) (cc cc1 : chat) :
  Forall (fun b => b <> x00) (c :: what) ->
  c <> x1b ->
  Z.land flags SWALLOW <> 0 ->
  chat_swallow_prompt signed cc = Ok tt cc1 ->
  from cc1 = x1b :: after ->
  (forall rest, after <> ("[" :: "6" :: "n" :: rest)%byte) ->
  exists e m,
    chat_talk_at signed SWALLOW (c :: what) flags cc = Fatal e m.
Proof.
  intros Hwhat Hesc Hflag Hprompt Hfrom Hafter. unfold chat_talk_at.
  rewrite (swallow_requested_yes _ _ Hflag).
  unfold bind at 1. rewrite Hprompt.
  destruct cc1 as [o1 f1]. cbn [from] in Hfrom. subst f1.
  rewrite (talk_send_then _ _ _ _ Hwhat).
  destruct (o_error o1); [do 2 eexists; reflexivity|].
  assert (Hc : c <> x00) by now inversion Hwhat.
  assert (Hne : x1b <> c) by congruence.
  unfold first_echo. rewrite (swallow_requested_yes _ _ Hflag).
  cbn [deref hd]. rewrite char_is_nul, (byte_eqb_neq _ _ Hc).
  cbn [negb andb].
  change (char_of_int ch_esc) with x1b.
  change (char_of_int ch_lbracket) with "["%byte.
  change (char_of_int ch_6) with "6"%byte.
  change (char_of_int ch_n) with "n"%byte.
  unfold bind. rewrite chat_expect_maybe_cons, (byte_eqb_neq _ _ Hne).
  decide_bytes. cbn [negb]. read_byte.
  destruct after as [|b1 f1]; [do 2 eexists; reflexivity|].
  rewrite chat_expect_cons.
  destruct (Byte.eqb b1 "["%byte) eqn:E1; [|do 2 eexists; reflexivity].
  apply Byte.byte_dec_bl in E1. subst b1.
  destruct f1 as [|b2 f2]; [do 2 eexists; reflexivity|].
  rewrite chat_expect_cons.
  destruct (Byte.eqb b2 "6"%byte) eqn:E2; [|do 2 eexists; reflexivity].
  apply Byte.byte_dec_bl in E2. subst b2.
  destruct f2 as [|b3 f3]; [do 2 eexists; reflexivity|].
  rewrite chat_expect_cons.
  destruct (Byte.eqb b3 "n"%byte) eqn:E3; [|do 2 eexists; reflexivity].
  apply Byte.byte_dec_bl in E3. subst b3.
  now elim (Hafter f3).
Qed.

(** X14: for the empty command the check of the first echoed byte is
    left out, flag or no flag: a status query ESC [ 6 n that comes after
    the prompt is not read past, it is where the '\r' of the line end is
    expected, and talk dies on its ESC. *)
Theorem talk_empty_command_query_fatal (what rest : list byte) (flags : Z)
    (cc cc1 : chat) :
  deref what = x00 ->
  Z.land flags SWALLOW <> 0 ->
  chat_swallow_prompt signed cc = Ok tt cc1 ->
  o_error (to cc1) = false ->
  from cc1 = x1b :: rest ->
  chat_talk_at signed SWALLOW what flags cc =
  Fatal ECOMM (Unexpected (int_of_char signed x0d) (int_of_char signed x1b)).
Proof.
  intros Hnul Hflag Hprompt Ho Hfrom. unfold chat_talk_at.
  rewrite (swallow_requested_yes _ _ Hflag).
  unfold bind at 1. rewrite Hprompt.
  destruct cc1 as [o1 f1]. cbn [to from] in Ho, Hfrom. subst f1.
  rewrite talk_send_c_string, Ho.
  rewrite (first_echo_empty _ _ Hnul).
  unfold bind at 1. unfold ret at 1.
  assert (Hecho : forall cc2, expect_echo signed what cc2 = Ok tt cc2).
  { intros cc2. destruct what as [|c what]; [reflexivity|].
    cbn [deref hd] in Hnul. subst c. cbn [expect_echo].
    now rewrite char_is_nul. }
  unfold bind at 1. rewrite Hecho.
  unfold expect_line_end, bind. change (char_of_int ch_cr) with x0d.
  now read_byte.
Qed.

End TalkRuns.

(** ** What talk writes, and talks in a row *)

Lemma keeps_outbound_ret {A} (a : A) : keeps_outbound (ret a).
Proof. intros cc cc' a'. unfold ret. now intros [= _ <-]. Qed.

Lemma keeps_outbound_bind {A B} (m : M A) (k : A -> M B) :
  keeps_outbound m -> (forall a, keeps_outbound (k a)) ->
  keeps_outbound (bind m k).
Proof.
  intros Hm Hk cc cc' b. unfold bind.
  destruct (m cc) as [a cc1|] eqn:E; [|discriminate].
  intros Hk1. rewrite (Hk a _ _ _ Hk1). exact (Hm _ _ _ E).
Qed.

Section TalkOutbound.

Variable signed : bool.
Variable SWALLOW : Z.

Lemma keeps_outbound_expect (expected : byte) :
  keeps_outbound (chat_expect signed expected).
Proof. intros cc cc' u H. now apply chat_expect_to in H. Qed.

Lemma keeps_outbound_expect_maybe (expected : byte) :
  keeps_outbound (chat_expect_maybe signed expected).
Proof.
  intros [o [|b f]] cc' r; [discriminate|].
  rewrite chat_expect_maybe_cons.
  destruct (Byte.eqb b expected); now intros [= _ <-].
Qed.

Lemma keeps_outbound_expect_echo (what : list byte) :
  keeps_outbound (expect_echo signed what).
Proof.
  induction what as [|c what IH]; [apply keeps_outbound_ret|].
  cbn [expect_echo]. destruct (int_of_char signed c =? ch_nul).
  - apply keeps_outbound_ret.
  - apply keeps_outbound_bind; [apply keeps_outbound_expect|].
    intros _. exact IH.
Qed.

Lemma keeps_outbound_line_end : keeps_outbound (expect_line_end signed).
Proof.
  unfold expect_line_end.
  apply keeps_outbound_bind; [apply keeps_outbound_expect|]. intros _.
  apply keeps_outbound_bind; [apply keeps_outbound_expect_maybe|]. intros _.
  apply keeps_outbound_expect.
Qed.

Lemma keeps_outbound_first_echo (what : list byte) (flags : Z) :
  keeps_outbound (first_echo signed SWALLOW what flags).
Proof.
  unfold first_echo.
  destruct (swallow_requested SWALLOW flags &&
            negb (int_of_char signed (deref what) =? ch_nul));
    [|apply keeps_outbound_ret].
  apply keeps_outbound_bind; [apply keeps_outbound_expect_maybe|].
  intros [|]; cbn [negb]; [apply keeps_outbound_ret|].
  apply keeps_outbound_bind; [|intros _; apply keeps_outbound_ret].
  apply keeps_outbound_bind; [apply keeps_outbound_expect_maybe|].
  intros [|]; [|apply keeps_outbound_ret].
  apply keeps_outbound_bind; [apply keeps_outbound_expect|]. intros _.
  apply keeps_outbound_bind; [apply keeps_outbound_expect|]. intros _.
  apply keeps_outbound_expect.
Qed.

(** X15: whenever talk returns normally, what it has written itself is
    the command text and a newline and nothing else, all of it flushed: no
    byte goes out while the echo is read, and the status query ESC [ 6 n
    met in place of the first echoed byte gets no reply. With the flag this
    comes after what the scanner wrote. *)
Theorem talk_outbound_effect (what : list byte) (flags : Z) (cc cc' : chat) :
  chat_talk_at signed SWALLOW what flags cc = Ok tt cc' ->
  exists cc1 : chat,
    (if swallow_requested SWALLOW flags
     then chat_swallow_prompt signed cc = Ok tt cc1
     else cc1 = cc) /\
    o_error (to cc1) = false /\
    to cc' = sent_flushed (to cc1) (c_string what ++ [x0a]).
Proof.
  assert (Hreads : keeps_outbound
            (what' <- first_echo signed SWALLOW what flags ;;
             expect_echo signed what' ;;
             expect_line_end signed)%chat).
  { apply keeps_outbound_bind; [apply keeps_outbound_first_echo|].
    intros what'.
    apply keeps_outbound_bind; [apply keeps_outbound_expect_echo|].
    intros _. apply keeps_outbound_line_end. }
  assert (Hsend : forall cc1 : chat,
             (checked_write (fputs what) ;;
              checked_write (putc ch_lf) ;;
              checked_write fflush ;;
              what' <- first_echo signed SWALLOW what flags ;;
              expect_echo signed what' ;;
              expect_line_end signed)%chat cc1 = Ok tt cc' ->
             o_error (to cc1) = false /\
             to cc' = sent_flushed (to cc1) (c_string what ++ [x0a])).
  { intros [o1 f1]. rewrite talk_send_c_string. cbn [to].
    destruct (o_error o1); [discriminate|].
    intros H. split; [reflexivity|]. now apply Hreads in H. }
  unfold chat_talk_at. unfold bind at 1.
  destruct (swallow_requested SWALLOW flags).
  - destruct (chat_swallow_prompt signed cc) as [[] cc1|] eqn:E;
      [|discriminate].
    intros H. exists cc1. split; [reflexivity|]. now apply Hsend.
  - unfold ret at 1. intros H. exists cc. split; [reflexivity|].
    now apply Hsend.
Qed.

(** X16: two talks in a row, without the flag, on an inbound stream that
    carries the two echoed lines one after the other: both return
    normally, the two command lines have gone out in order, and the
    inbound stream is left right after the second echo. *)
Theorem talk_twice (first second tail : list byte) (flags flags' : Z)
    (o : ostream) :
  Forall (fun b => b <> x00) first ->
  Forall (fun b => b <> x00) second ->
  Z.land flags SWALLOW = 0 ->
  Z.land flags' SWALLOW = 0 ->
  o_error o = false ->
  (chat_talk_at signed SWALLOW first flags ;;
   chat_talk_at signed SWALLOW second flags')%chat
    (mk_chat o (first ++ x0d :: x0a :: second ++ x0d :: x0a :: tail)) =
  Ok tt (mk_chat (sent_flushed o (first ++ x0a :: second ++ [x0a])) tail).
Proof.
  intros Hfirst Hsecond Hflag Hflag' Ho. unfold bind.
  rewrite (talk_plain_crlf signed SWALLOW _ _ _ _ Hfirst Hflag Ho).
  assert (Ho' : o_error (sent_flushed o (first ++ [x0a])) = false)
    by reflexivity.
  rewrite (talk_plain_crlf signed SWALLOW _ _ _ _ Hsecond Hflag' Ho').
  rewrite sent_flushed_twice. now rewrite <- app_assoc.
Qed.

End TalkOutbound.

(** ** talk on both kinds of platform *)

Lemma same_ret {A} (a : A) : same_on_ff_free (ret a) (ret a).
Proof.
  intros cc Hcc. split; [reflexivity|].
  unfold ret. now intros a' cc' [= _ <-].
Qed.

Lemma same_bind {A B} (m1 m2 : M A) (k1 k2 : A -> M B) :
  same_on_ff_free m1 m2 ->
  (forall a, same_on_ff_free (k1 a) (k2 a)) ->
  same_on_ff_free (bind m1 k1) (bind m2 k2).
Proof.
  intros Hm Hk cc Hcc. destruct (Hm cc Hcc) as [Heq Hkeep].
  unfold bind.
  destruct (m1 cc) as [a cc1|e m] eqn:E1, (m2 cc) as [a' cc2|e' m'] eqn:E2;
    cbn [result_chars] in Heq; try discriminate.
  - injection Heq as <- <-. exact (Hk a cc1 (Hkeep a cc1 eq_refl)).
  - split; [|discriminate]. injection Heq as -> Hmsg.
    cbn [result_chars]. now rewrite Hmsg.
Qed.

Lemma same_expect (expected : byte) :
  same_on_ff_free (chat_expect true expected) (chat_expect false expected).
Proof.
  intros cc Hcc. split; [apply chat_expect_signed|].
  intros u cc' H. apply chat_expect_to in H as [_ Hfrom].
  unfold ff_free in *. rewrite Hfrom in Hcc. intros Hin. apply Hcc.
  now right.
Qed.

Lemma same_expect_maybe (expected : byte) :
  same_on_ff_free (chat_expect_maybe true expected)
    (chat_expect_maybe false expected).
Proof.
  intros [o [|b f]] Hcc; [split; [reflexivity | discriminate]|].
  unfold ff_free in *. cbn [from] in Hcc.
  assert (Hb : b <> xff) by (intros ->; apply Hcc; now left).
  assert (Hf : ~ In xff f) by (intros Hin; apply Hcc; now right).
  rewrite !chat_expect_maybe_cons, (byte_eqb_neq _ _ Hb).
  cbn [andb]. split; [reflexivity|].
  destruct (Byte.eqb b expected); intros r cc' [= _ <-]; assumption.
Qed.

Lemma same_checked_write (w : ostream -> option ostream) :
  same_on_ff_free (checked_write w) (checked_write w).
Proof.
  intros cc Hcc. split; [reflexivity|]. unfold checked_write.
  destruct (w (to cc)); [|discriminate]. now intros u cc' [= _ <-].
Qed.

Lemma scan_loop_suffix (signed : bool) (f : list byte) :
  forall (sc sc' : scanner) (o : ostream) (cc' : chat),
    scan_loop signed sc o f = Ok sc' cc' ->
    exists before, f = before ++ from cc'.
Proof.
  induction f as [|b f IH]; intros sc sc' o cc'.
  - cbn [scan_loop]. now rewrite scan_eof_message.
  - cbn [scan_loop]. destruct (scan_turn signed sc o b) as [|sc1 o1|].
    + intros [= _ <-]. now exists [b].
    + intros H. apply IH in H as [before ->]. now exists (b :: before).
    + discriminate.
Qed.

Lemma same_swallow_prompt :
  same_on_ff_free (chat_swallow_prompt true) (chat_swallow_prompt false).
Proof.
  intros cc Hcc. split.
  { unfold chat_swallow_prompt, swallow_prompt_from, bind.
    rewrite scan_loop_signed.
    destruct (scan_loop false scanner_init (to cc) (from cc)); [|reflexivity].
    apply chat_expect_signed. }
  intros u cc'. unfold chat_swallow_prompt, swallow_prompt_from, bind.
  destruct (scan_loop true scanner_init (to cc) (from cc)) as [sc1 cc1|]
    eqn:Eloop; [|discriminate].
  intros H. apply chat_expect_to in H as [_ Hfrom].
  apply scan_loop_suffix in Eloop as [before Hbefore].
  unfold ff_free in *. rewrite Hbefore, Hfrom in Hcc.
  intros Hin. apply Hcc. apply in_or_app. right. now right.
Qed.

Lemma same_expect_echo (what : list byte) :
  same_on_ff_free (expect_echo true what) (expect_echo false what).
Proof.
  induction what as [|c what IH]; [apply same_ret|].
  cbn [expect_echo]. rewrite !char_is_nul.
  destruct (Byte.eqb c x00); [apply same_ret|].
  apply same_bind; [apply same_expect|]. intros _. exact IH.
Qed.

Lemma same_line_end :
  same_on_ff_free (expect_line_end true) (expect_line_end false).
Proof.
  unfold expect_line_end.
  apply same_bind; [apply same_expect|]. intros _.
  apply same_bind; [apply same_expect_maybe|]. intros _.
  apply same_expect.
Qed.

Lemma same_first_echo (SWALLOW : Z) (what : list byte) (flags : Z) :
  same_on_ff_free (first_echo true SWALLOW what flags)
    (first_echo false SWALLOW what flags).
Proof.
  unfold first_echo. rewrite !char_is_nul.
  destruct (swallow_requested SWALLOW flags && negb (Byte.eqb (deref what) x00));
    [|apply same_ret].
  apply same_bind; [apply same_expect_maybe|].
  intros [|]; cbn [negb]; [apply same_ret|].
  apply same_bind; [|intros _; apply same_ret].
  apply same_bind; [apply same_expect_maybe|].
  intros [|]; [|apply same_ret].
  apply same_bind; [apply same_expect|]. intros _.
  apply same_bind; [apply same_expect|]. intros _.
  apply same_expect.
Qed.

(** X17: as long as the child never sends the byte 0xff, talk, with or
    without the flag, does the same on a platform with signed chars as on
    one with unsigned chars, up to the promotion of the chars that the
    message "expected ..., found ..." names: it returns normally on the one
    exactly when it does on the other, with the same session, and where it
    dies it dies on both with the same message, the [int] given for a char
    from 0x80 on being negative on the one and positive on the other. The
    inbound stream it leaves is still free of 0xff. *)
Theorem chat_talk_at_signedness (SWALLOW : Z) (what : list byte) (flags : Z)
    (cc : chat) :
  ~ In xff (from cc) ->
  result_chars (chat_talk_at true SWALLOW what flags cc) =
  result_chars (chat_talk_at false SWALLOW what flags cc) /\
  (forall cc' : chat,
      chat_talk_at true SWALLOW what flags cc = Ok tt cc' <->
      chat_talk_at false SWALLOW what flags cc = Ok tt cc') /\
  forall cc' : chat,
    chat_talk_at true SWALLOW what flags cc = Ok tt cc' ->
    ~ In xff (from cc').
Proof.
  assert (Hsame : same_on_ff_free (chat_talk_at true SWALLOW what flags)
                    (chat_talk_at false SWALLOW what flags)).
  { unfold chat_talk_at.
    apply same_bind.
    { destruct (swallow_requested SWALLOW flags);
        [apply same_swallow_prompt | apply same_ret]. }
    intros _. apply same_bind; [apply same_checked_write|].
    intros _. apply same_bind; [apply same_checked_write|].
    intros _. apply same_bind; [apply same_checked_write|].
    intros _. apply same_bind; [apply same_first_echo|].
    intros what'. apply same_bind; [apply same_expect_echo|].
    intros _. apply same_line_end. }
  intros Hcc. destruct (Hsame cc Hcc) as [Heq Hkeep].
  split; [exact Heq|]. split.
  - intros cc'. now apply result_chars_ok.
  - intros cc'. apply Hkeep.
Qed.

(** ** The further properties on concrete sessions *)

(** Prove [Forall P] of a list of known bytes, [P] a conjunction of
    inequalities. *)
Ltac forall_bytes :=
  repeat (apply Forall_cons; [repeat split; discriminate|]); apply Forall_nil.

Lemma swallow_plain_text_prompt_witness :
  chat_swallow_prompt true
    (mk_chat ostream_open (lit "boot ok" ++ "$"%byte :: " "%byte :: lit "ls")) =
  Ok tt (mk_chat ostream_open (lit "ls")).
Proof.
  apply (swallow_plain_text_prompt true (lit "boot ok") (lit "ls") "$"%byte).
  - forall_bytes.
  - right. reflexivity.
Defined.

Lemma swallow_plain_text_eof_witness :
  chat_swallow_prompt false
    (mk_chat ostream_open (lit "no shell" ++ [x0d; x0a])) =
  Fatal ECOMM (ChildText (lit "no shell")).
Proof.
  refine (proj1 (swallow_plain_text_eof false (lit "no shell" ++ [x0d; x0a])
                   ostream_open _)).
  forall_bytes.
Defined.

Lemma swallow_stops_at_first_prompt_witness :
  exists (sc' : scanner) (o' : ostream),
    scan_after true scanner_init ostream_open (lit "cost: ") = Some (sc', o') /\
    chat_swallow_prompt true
      (mk_chat ostream_open (lit "cost: " ++ "$"%byte :: lit "5 now" ++ lit "$ ")) =
    Fatal ECOMM (Unexpected 32 53).
Proof.
  apply (swallow_stops_at_first_prompt true (lit "cost: ")
           (lit "5 now" ++ lit "$ ") "$"%byte ostream_open).
  - forall_bytes.
  - right. reflexivity.
  - reflexivity.
Defined.

Lemma status_query_scanned_witness :
  scan_loop true (mk_scanner 77 S_NORMAL (lit "ab")) ostream_open
    (status_query (lit "006") ++ lit "$ ") =
  scan_loop true (mk_scanner 6 S_NORMAL (lit "ab"))
    (mk_ostream false [] (x1b :: lit "[25;80R")) (lit "$ ").
Proof.
  apply (status_query_scanned true (lit "006") (lit "$ ")
           (mk_scanner 77 S_NORMAL (lit "ab")) ostream_open).
  - repeat constructor.
  - reflexivity.
  - reflexivity.
Defined.

Lemma csi_sequence_abandoned_witness :
  scan_after true (mk_scanner 0 S_NORMAL (lit "ab")) ostream_open
    (x1b :: "["%byte :: lit "25" ++ [";"%byte]) =
  Some (mk_scanner 25 S_NORMAL (lit "ab"), ostream_open).
Proof.
  apply (csi_sequence_abandoned true (lit "25") ";"%byte
           (mk_scanner 0 S_NORMAL (lit "ab")) ostream_open).
  - repeat constructor.
  - reflexivity.
  - discriminate.
  - split; discriminate.
  - reflexivity.
Defined.

Lemma escape_pair_hides_query_witness :
  scan_after false (mk_scanner 0 S_NORMAL []) ostream_open
    (x1b :: status_query (lit "5")) =
  Some (mk_scanner 0 S_NORMAL (lit "[5n"), ostream_open).
Proof.
  apply (escape_pair_hides_query false (lit "5") (mk_scanner 0 S_NORMAL [])
           ostream_open).
  - repeat constructor.
  - reflexivity.
Defined.

Lemma scanner_writes_replies_only_witness :
  mk_ostream false [] (x1b :: lit "[0n" ++ x1b :: lit "[25;80R") =
  ostream_open \/
  exists args : list Z,
    mk_ostream false [] (x1b :: lit "[0n" ++ x1b :: lit "[25;80R") =
    sent_flushed ostream_open (List.concat (map status_reply args)).
Proof.
  apply (scanner_writes_replies_only true
           (mk_chat ostream_open
              (x1b :: lit "[5n" ++ x1b :: lit "[6n" ++ lit "# "))
           (mk_chat
              (mk_ostream false [] (x1b :: lit "[0n" ++ x1b :: lit "[25;80R"))
              [])).
  reflexivity.
Defined.

Lemma talk_plain_accepts_witness :
  chat_talk_at false 1 (lit "id") 0
    (mk_chat ostream_open (lit "id" ++ [x0d; x0d; x0a])) =
  Ok tt (mk_chat (sent_flushed ostream_open (lit "id" ++ [x0a])) []).
Proof.
  apply (talk_plain_accepts false 1 (lit "id") 0 ostream_open
           (sent_flushed ostream_open (lit "id" ++ [x0a]))
           (lit "id" ++ [x0d; x0d; x0a]) []).
  - reflexivity.
  - split; [reflexivity|]. split; [reflexivity|]. right. left. reflexivity.
Defined.

Lemma talk_wrong_echo_fatal_witness :
  chat_talk_at true 1 (lit "ls -l") 0
    (mk_chat ostream_open (lit "ls " ++ "+"%byte :: lit "l")) =
  Fatal ECOMM (Unexpected 45 43).
Proof.
  apply (talk_wrong_echo_fatal true 1 (lit "ls ") (lit "l") (lit "l")
           "-"%byte 0 ostream_open).
  - forall_bytes.
  - reflexivity.
  - reflexivity.
  - discriminate.
Defined.

Lemma talk_after_prompt_echo_witness :
  chat_talk_at true 1 (lit "ls") 1
    (mk_chat ostream_open (lit "# " ++ lit "ls" ++ [x0d; x0d; x0a])) =
  Ok tt (mk_chat (sent_flushed ostream_open (lit "ls" ++ [x0a])) []).
Proof.
  apply (talk_after_prompt_echo true 1 (lit "ls") [] 1
           (mk_chat ostream_open (lit "# " ++ lit "ls" ++ [x0d; x0d; x0a]))
           (mk_chat ostream_open (lit "ls" ++ [x0d; x0d; x0a]))).
  - forall_bytes.
  - discriminate.
  - reflexivity.
  - reflexivity.
  - right. reflexivity.
Defined.

Lemma talk_query_deviation_fatal_witness :
  exists e m,
    chat_talk_at true 1 (lit "ls") 1
      (mk_chat ostream_open (lit "$ " ++ x1b :: lit "[5nls" ++ [x0d; x0a])) =
    Fatal e m.
Proof.
  apply (talk_query_deviation_fatal true 1 "l"%byte (lit "s")
           (lit "[5nls" ++ [x0d; x0a]) 1
           (mk_chat ostream_open (lit "$ " ++ x1b :: lit "[5nls" ++ [x0d; x0a]))
           (mk_chat ostream_open (x1b :: lit "[5nls" ++ [x0d; x0a]))).
  - forall_bytes.
  - discriminate.
  - discriminate.
  - reflexivity.
  - reflexivity.
  - intros rest. discriminate.
Defined.

Lemma talk_empty_command_query_fatal_witness :
  chat_talk_at true 1 [] 1
    (mk_chat ostream_open (lit "$ " ++ x1b :: lit "[6n" ++ [x0d; x0a])) =
  Fatal ECOMM (Unexpected 13 27).
Proof.
  apply (talk_empty_command_query_fatal true 1 [] (lit "[6n" ++ [x0d; x0a]) 1
           (mk_chat ostream_open (lit "$ " ++ x1b :: lit "[6n" ++ [x0d; x0a]))
           (mk_chat ostream_open (x1b :: lit "[6n" ++ [x0d; x0a]))).
  - reflexivity.
  - discriminate.
  - reflexivity.
  - reflexivity.
  - reflexivity.
Defined.

Lemma talk_outbound_effect_witness :
  exists cc1 : chat,
    chat_swallow_prompt true
      (mk_chat ostream_open
         (x1b :: lit "[5n$ " ++ x1b :: lit "[6nls" ++ [x0d; x0a])) =
    Ok tt cc1 /\
    o_error (to cc1) = false /\
    mk_ostream false [] (x1b :: lit "[0n" ++ lit "ls" ++ [x0a]) =
    sent_flushed (to cc1) (lit "ls" ++ [x0a]).
Proof.
  apply (talk_outbound_effect true 1 (lit "ls") 1
           (mk_chat ostream_open
              (x1b :: lit "[5n$ " ++ x1b :: lit "[6nls" ++ [x0d; x0a]))
           (mk_chat (mk_ostream false [] (x1b :: lit "[0n" ++ lit "ls" ++ [x0a]))
              [])).
  reflexivity.
Defined.

Lemma talk_twice_witness :
  (chat_talk_at true 1 (lit "cd /") 0 ;; chat_talk_at true 1 (lit "ls") 0)%chat
    (mk_chat ostream_open
       (lit "cd /" ++ x0d :: x0a :: lit "ls" ++ x0d :: x0a :: lit "bin")) =
  Ok tt
    (mk_chat (sent_flushed ostream_open (lit "cd /" ++ x0a :: lit "ls" ++ [x0a]))
       (lit "bin")).
Proof.
  apply (talk_twice true 1 (lit "cd /") (lit "ls") (lit "bin") 0 0
           ostream_open).
  - forall_bytes.
  - forall_bytes.
  - reflexivity.
  - reflexivity.
  - reflexivity.
Defined.

Lemma chat_talk_at_signedness_witness :
  result_chars
    (chat_talk_at true 1 (lit "ls") 0 (mk_chat ostream_open ["l"%byte; xe1])) =
  result_chars
    (chat_talk_at false 1 (lit "ls") 0 (mk_chat ostream_open ["l"%byte; xe1])).
Proof.
  refine (proj1 (chat_talk_at_signedness 1 (lit "ls") 0
                   (mk_chat ostream_open ["l"%byte; xe1]) _)).
  cbn. intros H.
  repeat (destruct H as [H | H]; [discriminate H|]). exact H.
Defined.

(** The message for a wrong byte from 0x80 on does depend on the
    platform: the char goes to "0x%02x" as a negative [int] where chars
    are signed. *)
Example unexpected_high_byte :
  chat_talk_at true 1 (lit "ls") 0 (mk_chat ostream_open ["l"%byte; xe1]) =
  Fatal ECOMM (Unexpected 115 (-31)) /\
  chat_talk_at false 1 (lit "ls") 0 (mk_chat ostream_open ["l"%byte; xe1]) =
  Fatal ECOMM (Unexpected 115 225).
Proof. split; reflexivity. Qed.

(** ** The optional-match primitive and the scanner, further *)

(** X18: what [chat_expect_maybe] does with a byte it could read: it
    returns true and has consumed the byte exactly when the byte is the
    expected one; otherwise it returns false with the inbound stream as it
    was, but for the byte 0xff on a platform with signed chars, which is
    consumed. In no case is anything written. *)
Theorem chat_expect_maybe_behaviour (signed : bool) (expected b : byte)
    (o : ostream) (rest : list byte) :
  chat_expect_maybe signed expected (mk_chat o (b :: rest)) =
  if Byte.eqb b expected then Ok true (mk_chat o rest)
  else if signed && Byte.eqb b xff then Ok false (mk_chat o rest)
  else Ok false (mk_chat o (b :: rest)).
Proof.
  rewrite chat_expect_maybe_cons.
  destruct (Byte.eqb b expected); [reflexivity|].
  now destruct (signed && Byte.eqb b xff).
Qed.

Section ScannerResults.

Variable signed : bool.

Lemma is_prompt_char_inv (b : byte) :
  is_prompt_char signed b = true -> b = "#"%byte \/ b = "$"%byte.
Proof.
  rewrite is_prompt_char_bytes. intros H. apply orb_true_iff in H.
  destruct H as [H | H]; apply Byte.byte_dec_bl in H; auto.
Qed.

Lemma is_prompt_char_not (b : byte) :
  is_prompt_char signed b = false -> not_prompt b.
Proof.
  rewrite is_prompt_char_bytes. intros H. apply orb_false_iff in H.
  destruct H as [H1 H2]. split; now apply Byte.eqb_false.
Qed.

Lemma scan_loop_ok_inv (f : list byte) :
  forall (sc sc' : scanner) (o : ostream) (cc' : chat),
    scan_loop signed sc o f = Ok sc' cc' ->
    exists (before : list byte) (p : byte),
      f = before ++ p :: from cc' /\
      (p = "#"%byte \/ p = "$"%byte) /\
      Forall not_prompt before.
Proof.
  induction f as [|b f IH]; intros sc sc' o cc'.
  - cbn [scan_loop]. now rewrite scan_eof_message.
  - cbn [scan_loop]. rewrite scan_turn_eq.
    destruct (is_prompt_char signed b) eqn:Hb.
    + intros [= _ <-]. exists [], b.
      split; [reflexivity|]. split; [now apply is_prompt_char_inv|].
      constructor.
    + destruct (scan_switch signed sc b o) as [[sc1 o1]|]; [|discriminate].
      intros H. apply IH in H as (before & p & -> & Hp & Hbefore).
      exists (b :: before), p. split; [reflexivity|]. split; [exact Hp|].
      constructor; [now apply is_prompt_char_not | exact Hbefore].
Qed.

(** X19: whenever the scanner returns normally, it has consumed the
    inbound stream up to and with the first prompt character and the space
    behind it, and not one byte more. *)
Theorem swallow_returns_after_first_prompt (cc cc' : chat) :
  chat_swallow_prompt signed cc = Ok tt cc' ->
  exists (before : list byte) (p : byte),
    from cc = before ++ p :: " "%byte :: from cc' /\
    (p = "#"%byte \/ p = "$"%byte) /\
    Forall not_prompt before.
Proof.
  unfold chat_swallow_prompt, swallow_prompt_from, bind.
  destruct (scan_loop signed scanner_init (to cc) (from cc)) as [sc1 cc1|]
    eqn:Eloop; [|discriminate].
  change (char_of_int ch_space) with " "%byte.
  intros H. apply chat_expect_to in H as [_ Hfrom].
  apply scan_loop_ok_inv in Eloop as (before & p & Hf & Hp & Hbefore).
  exists before, p. rewrite Hf, Hfrom. auto.
Qed.






End ScannerResults.

Lemma swallow_returns_after_first_prompt_witness :
  exists (before : list byte) (p : byte),
    lit "a" ++ x1b :: lit "[6n# ls" = before ++ p :: " "%byte :: lit "ls" /\
    (p = "#"%byte \/ p = "$"%byte) /\
    Forall not_prompt before.
Proof.
  apply (swallow_returns_after_first_prompt true
           (mk_chat ostream_open (lit "a" ++ x1b :: lit "[6n# ls"))
           (mk_chat (mk_ostream false [] (x1b :: lit "[25;80R")) (lit "ls"))).
  reflexivity.
Defined.

